(** * Plant diagnosis pipeline: a shallow embedding and its properties

  The development follows the two source files of the repository:

  - [plant_diagnosis.py]: class [PlantDiagnosisSystem] (image fetcher,
    diagnosis requester, persistence updater, batch loop, [run_once]);
  - [api/index.py]: the HTTP surface ([handle_diagnosis_request],
    [Handler.do_POST], the WSGI [app]).

  Python code is embedded as state-passing functions in a small
  state-and-exception monad.  The services the program talks to (object
  storage, HTTP, the inference service, the clock, the transport of the
  database) are oracles over an abstract world, and so are the library
  codecs ([json.loads], [json.dumps], [bytes.decode], [Image.open]); the
  [images] table itself is a concrete list of rows, so that what the program
  writes can be observed.  Statements hold for every such environment; a
  reference environment with implemented codecs exercises them.

  Not embedded: [run_continuous_monitoring] (the endless polling loop around
  [process_new_images]), [main] (argument and configuration handling) and
  the serverless [handler], a third copy of the dispatch of [app]. *)

From Stdlib Require Import ZArith NArith List String Ascii Lia DecimalString.
From stdpp Require Import base option list gmap.

Local Open Scope string_scope.
Local Open Scope list_scope.
Local Open Scope N_scope.

(** ** Python strings and scalar values *)

Module Py.

(** A Python [str] is a sequence of Unicode code points. *)
Abbreviation pystr := (list N).

(** A Python [bytes] object. *)
Abbreviation bytes := (list Byte.byte).

Definition py (s : string) : pystr :=
  map N_of_ascii (list_ascii_of_string s).

(** [str.isspace] on one code point: the table of
    [_PyUnicode_IsWhitespace]. *)
Definition isspace (c : N) : bool :=
  ((9 <=? c) && (c <=? 13)) || ((28 <=? c) && (c <=? 32))
  || (c =? 133) || (c =? 160) || (c =? 5760)
  || ((8192 <=? c) && (c <=? 8202))
  || (c =? 8232) || (c =? 8233) || (c =? 8239) || (c =? 8287)
  || (c =? 12288).

Fixpoint lstrip (s : pystr) : pystr :=
  match s with
  | c :: s' => if isspace c then lstrip s' else s
  | [] => []
  end.

Definition rstrip (s : pystr) : pystr := rev (lstrip (rev s)).

(** [s.strip()] *)
Definition strip (s : pystr) : pystr := rstrip (lstrip s).

(** [s.startswith(p)] *)
Fixpoint startswith (s p : pystr) {struct p} : bool :=
  match p, s with
  | [], _ => true
  | a :: p', b :: s' => (a =? b) && startswith s' p'
  | _ :: _, [] => false
  end.

(** [s.endswith(p)] *)
Definition endswith (s p : pystr) : bool := startswith (rev s) (rev p).

(** [s[n:]] and [s[:-n]] for [0 < n]. *)
Definition slice_from (n : nat) (s : pystr) : pystr := drop n s.
Definition slice_to_minus (n : nat) (s : pystr) : pystr :=
  take (length s - n) s.
(** [s[:n]] *)
Definition slice_to (n : nat) (s : pystr) : pystr := take n s.

(** Scalar values as they arrive from the database client and from the
    storage client (JSON scalars). *)
Inductive pyval :=
| PNone
| PBool (b : bool)
| PInt (z : Z)
| PStr (s : pystr).

#[global] Instance pyval_eq_dec : EqDecision pyval.
Proof. solve_decision. Defined.

(** [bool(v)] *)
Definition truthy (v : pyval) : bool :=
  match v with
  | PNone => false
  | PBool b => b
  | PInt z => negb (z =? 0)%Z
  | PStr s => match s with [] => false | _ => true end
  end.

(** [str(z)] for an integer. *)
Definition str_of_Z (z : Z) : pystr :=
  py (NilZero.string_of_int (Z.to_int z)).

(** [str(v)], as used by f-strings. *)
Definition py_str (v : pyval) : pystr :=
  match v with
  | PNone => py "None"
  | PBool true => py "True"
  | PBool false => py "False"
  | PInt z => str_of_Z z
  | PStr s => s
  end.

(** Exceptions: the classes the code distinguishes, and the text of
    [str(e)].  Only subclasses of [Exception] are modelled; asynchronous
    [BaseException]s (KeyboardInterrupt, SystemExit) are outside the
    model. *)
Inductive exn_class :=
| KeyError
| TypeError
| ValueError
| AttributeError
| UnicodeDecodeError
| JSONDecodeError
| HTTPError
| OtherException.

Record exn := Exn { exn_cls : exn_class; exn_str : pystr }.

(** [isinstance(e, json.JSONDecodeError)] and
    [isinstance(e, requests.exceptions.HTTPError)]. *)
Definition is_JSONDecodeError (e : exn) : bool :=
  match exn_cls e with JSONDecodeError => true | _ => false end.
Definition is_HTTPError (e : exn) : bool :=
  match exn_cls e with HTTPError => true | _ => false end.

(** The result of evaluating a Python expression. *)
Inductive res (A : Type) :=
| Ok (a : A)
| Raise (e : exn).
Arguments Ok {A} a.
Arguments Raise {A} e.

(** A dict with string keys and scalar values (a table row, a storage
    client reply). *)
Abbreviation dict := (gmap (list N) pyval).

(** [repr(k)] of a plain key, which is what [str(KeyError(k))] shows. *)
Definition repr_key (k : pystr) : pystr := py "'" ++ k ++ py "'".

(** [d[k]] *)
Definition getitem (d : dict) (k : pystr) : res pyval :=
  match d !! k with
  | Some v => Ok v
  | None => Raise (Exn KeyError (repr_key k))
  end.

(** [d.get(k, dflt)] *)
Definition get (d : dict) (k : pystr) (dflt : pyval) : pyval :=
  default dflt (d !! k).

(** [bool(b)] for a bytes-or-None value. *)
Definition bytes_truthy (b : option bytes) : bool :=
  match b with
  | Some (_ :: _) => true
  | _ => false
  end.

End Py.
Export Py.
Coercion py : string >-> list.

(** ** JSON values and a reference decoder *)

Module Json.

(** What [json.loads] builds and [json.dumps] prints.  An object keeps its
    members in source order; a float keeps the text of its literal. *)
#[local] Unset Elimination Schemes.
Inductive json :=
| JNull
| JBool (b : bool)
| JInt (z : Z)
| JFloat (lit : pystr)
| JStr (s : pystr)
| JArr (items : list json)
| JObj (members : list (pystr * json)).
#[local] Set Elimination Schemes.

(** A scalar as a JSON value. *)
Definition of_pyval (v : pyval) : json :=
  match v with
  | PNone => JNull
  | PBool b => JBool b
  | PInt z => JInt z
  | PStr s => JStr s
  end.

(** [d.get(k, dflt)] on a decoded object: the last member with that key, as
    in the dict Python builds. *)
Fixpoint obj_get (kv : list (pystr * json)) (k : pystr) (dflt : json) : json :=
  match kv with
  | [] => dflt
  | (k', v) :: kv' =>
      obj_get kv' k (if bool_decide (k' = k) then v else dflt)
  end.

(** The JSON whitespace of the decoder: space, tab, line feed, carriage
    return. *)
Definition is_ws (c : N) : bool :=
  (c =? 32) || (c =? 9) || (c =? 10) || (c =? 13).

Fixpoint skip_ws (s : pystr) : pystr :=
  match s with
  | c :: s' => if is_ws c then skip_ws s' else s
  | [] => []
  end.

Definition is_digit (c : N) : bool := (48 <=? c) && (c <=? 57).

Fixpoint span_digits (s : pystr) : pystr * pystr :=
  match s with
  | c :: s' =>
      if is_digit c then let '(d, r) := span_digits s' in (c :: d, r)
      else ([], s)
  | [] => ([], [])
  end.

Definition digits_value (d : pystr) : Z :=
  fold_left (fun acc c => (10 * acc + Z.of_N (c - 48))%Z) d 0%Z.

(** A number literal: an optional minus sign, an integer part (a single
    zero, or a nonzero digit followed by digits), then an optional fraction
    (a dot and at least one digit) and an optional exponent (e or E, an
    optional sign, at least one digit). *)
Definition scan_int (s : pystr) : option (pystr * pystr) :=
  match s with
  | 48 :: r => Some ([48], r)
  | c :: _ =>
      if is_digit c then Some (span_digits s) else None
  | [] => None
  end.

Definition scan_frac (s : pystr) : pystr * pystr :=
  match s with
  | 46 :: r =>
      match span_digits r with
      | ([], _) => ([], s)
      | (d, r') => (46 :: d, r')
      end
  | _ => ([], s)
  end.

Definition scan_exp (s : pystr) : pystr * pystr :=
  match s with
  | e :: r =>
      if (e =? 101) || (e =? 69) then
        let '(sign, r1) :=
          match r with
          | c :: r1 => if (c =? 43) || (c =? 45) then ([c], r1) else ([], r)
          | [] => ([], r)
          end in
        match span_digits r1 with
        | ([], _) => ([], s)
        | (d, r') => (e :: sign ++ d, r')
        end
      else ([], s)
  | [] => ([], s)
  end.

Definition scan_number (s : pystr) : option (json * pystr) :=
  let '(neg, s1) :=
    match s with 45 :: r => (true, r) | _ => (false, s) end in
  match scan_int s1 with
  | None => None
  | Some (ip, r1) =>
      let '(fp, r2) := scan_frac r1 in
      let '(ep, r3) := scan_exp r2 in
      match fp, ep with
      | [], [] =>
          Some (JInt (if neg then - digits_value ip else digits_value ip)%Z, r3)
      | _, _ =>
          Some (JFloat ((if neg then [45] else []) ++ ip ++ fp ++ ep), r3)
      end
  end.

Definition hex_value (c : N) : option N :=
  if is_digit c then Some (c - 48)
  else if (97 <=? c) && (c <=? 102) then Some (c - 87)
  else if (65 <=? c) && (c <=? 70) then Some (c - 55)
  else None.

Definition scan_hex4 (s : pystr) : option (N * pystr) :=
  match s with
  | a :: b :: c :: d :: r =>
      match hex_value a, hex_value b, hex_value c, hex_value d with
      | Some a, Some b, Some c, Some d =>
          Some (((a * 16 + b) * 16 + c) * 16 + d, r)
      | _, _, _, _ => None
      end
  | _ => None
  end.

Definition simple_escape (c : N) : option N :=
  if c =? 34 then Some 34 else if c =? 92 then Some 92
  else if c =? 47 then Some 47 else if c =? 98 then Some 8
  else if c =? 102 then Some 12 else if c =? 110 then Some 10
  else if c =? 114 then Some 13 else if c =? 116 then Some 9
  else None.

(** The body of a string literal after its opening quote (strict mode: no
    raw control character). *)
Fixpoint scan_string (n : nat) (s acc : pystr) : option (pystr * pystr) :=
  match n with
  | O => None
  | S n' =>
      match s with
      | [] => None
      | 34 :: r => Some (rev acc, r)
      | 92 :: 117 :: r =>
          match scan_hex4 r with
          | None => None
          | Some (u, r1) =>
              if (55296 <=? u) && (u <=? 56319) then
                match r1 with
                | 92 :: 117 :: r2 =>
                    match scan_hex4 r2 with
                    | Some (u2, r3) =>
                        if (56320 <=? u2) && (u2 <=? 57343) then
                          scan_string n' r3
                            (65536 + (u - 55296) * 1024 + (u2 - 56320) :: acc)
                        else scan_string n' r1 (u :: acc)
                    | None => scan_string n' r1 (u :: acc)
                    end
                | _ => scan_string n' r1 (u :: acc)
                end
              else scan_string n' r1 (u :: acc)
          end
      | 92 :: c :: r =>
          match simple_escape c with
          | Some c' => scan_string n' r (c' :: acc)
          | None => None
          end
      | c :: r => if c <? 32 then None else scan_string n' r (c :: acc)
      end
  end.

Definition scan_literal (s : pystr) : option (json * pystr) :=
  if startswith s "null" then Some (JNull, drop 4 s)
  else if startswith s "true" then Some (JBool true, drop 4 s)
  else if startswith s "false" then Some (JBool false, drop 5 s)
  else if startswith s "NaN" then Some (JFloat "NaN", drop 3 s)
  else if startswith s "Infinity" then Some (JFloat "Infinity", drop 8 s)
  else if startswith s "-Infinity" then Some (JFloat "-Infinity", drop 9 s)
  else scan_number s.

(** One value at the head of [s]; [elements] and [members] read what
    follows an opening bracket or brace.  The fuel bounds the nesting and the
    number of items; [loads] supplies enough of it for the whole text. *)
Fixpoint scan_value (n : nat) (s : pystr) : option (json * pystr) :=
  match n with
  | O => None
  | S n' =>
      match s with
      | 34 :: r =>
          match scan_string (S (length r)) r [] with
          | Some (str, r') => Some (JStr str, r')
          | None => None
          end
      | 91 :: r =>
          match skip_ws r with
          | 93 :: r' => Some (JArr [], r')
          | r' =>
              match elements n' r' [] with
              | Some (items, r'') => Some (JArr items, r'')
              | None => None
              end
          end
      | 123 :: r =>
          match skip_ws r with
          | 125 :: r' => Some (JObj [], r')
          | r' =>
              match members n' r' [] with
              | Some (kv, r'') => Some (JObj kv, r'')
              | None => None
              end
          end
      | _ => scan_literal s
      end
  end
with elements (n : nat) (s : pystr) (acc : list json)
  : option (list json * pystr) :=
  match n with
  | O => None
  | S n' =>
      match scan_value n' s with
      | None => None
      | Some (v, r) =>
          match skip_ws r with
          | 93 :: r' => Some (rev (v :: acc), r')
          | 44 :: r' => elements n' (skip_ws r') (v :: acc)
          | _ => None
          end
      end
  end
with members (n : nat) (s : pystr) (acc : list (pystr * json))
  : option (list (pystr * json) * pystr) :=
  match n with
  | O => None
  | S n' =>
      match s with
      | 34 :: r =>
          match scan_string (S (length r)) r [] with
          | None => None
          | Some (k, r1) =>
              match skip_ws r1 with
              | 58 :: r2 =>
                  match scan_value n' (skip_ws r2) with
                  | None => None
                  | Some (v, r3) =>
                      match skip_ws r3 with
                      | 125 :: r4 => Some (rev ((k, v) :: acc), r4)
                      | 44 :: r4 => members n' (skip_ws r4) ((k, v) :: acc)
                      | _ => None
                      end
                  end
              | _ => None
              end
          end
      | _ => None
      end
  end.

(** The reference decoder: optional whitespace, one value, optional
    whitespace, end of text.  [None] stands for [json.JSONDecodeError]. *)
Definition loads (s : pystr) : option json :=
  match scan_value (2 * length s + 2) (skip_ws s) with
  | Some (v, r) => match skip_ws r with [] => Some v | _ => None end
  | None => None
  end.

End Json.
Export Json.

(** ** The state-and-exception monad *)

(** A computation over a state [S] that returns a value or raises. *)
Definition M (S A : Type) : Type := S -> res A * S.

Definition ret {S A} (a : A) : M S A := fun s => (Ok a, s).

Definition raise {S A} (e : exn) : M S A := fun s => (Raise e, s).

Definition bind {S A B} (m : M S A) (k : A -> M S B) : M S B :=
  fun s =>
    match m s with
    | (Ok a, s') => k a s'
    | (Raise e, s') => (Raise e, s')
    end.

(** [try: m except Exception as e: h e] *)
Definition try_except {S A} (m : M S A) (h : exn -> M S A) : M S A :=
  fun s =>
    match m s with
    | (Ok a, s') => (Ok a, s')
    | (Raise e, s') => h e s'
    end.

(** The value of an expression that touches no state. *)
Definition eval {S A} (r : res A) : M S A := fun s => (r, s).

Declare Scope py_scope.
Delimit Scope py_scope with py.
Notation "x <- m ;; k" := (bind m (fun x => k))
  (at level 100, m at next level, k at level 200, right associativity,
   format "'[v' x  <-  m  ;; '/' k ']'") : py_scope.
Notation "m ;; k" := (bind m (fun _ => k))
  (at level 100, k at level 200, right associativity) : py_scope.
Local Open Scope py_scope.

(** [for x in l: f x] *)
Fixpoint for_each {S A} (l : list A) (f : A -> M S unit) : M S unit :=
  match l with
  | [] => ret tt
  | x :: l' => f x ;; for_each l' f
  end.

(** A block that owns local variables [L] next to the state [S]. *)
Definition lift {S L A} (m : M S A) : M (S * L) A :=
  fun sl => let '(r, s') := m (fst sl) in (r, (s', snd sl)).

Definition with_locals {S L A} (l0 : L) (m : M (S * L) A) : M S (A * L) :=
  fun s =>
    match m (s, l0) with
    | (Ok a, (s', l)) => (Ok (a, l), s')
    | (Raise e, (s', _)) => (Raise e, s')
    end.

Definition get_locals {S L} : M (S * L) L := fun sl => (Ok (snd sl), sl).
Definition set_locals {S L} (l : L) : M (S * L) unit :=
  fun sl => (Ok tt, (fst sl, l)).

(** ** The outside world *)

(** A decoded picture ([PIL.Image.Image]); such an object is always truthy. *)
Inductive Image := PILImage (data : bytes).

(** A [requests.Response]. *)
Record Response := { status_code : Z; content : bytes }.

(** [resp.raise_for_status()] *)
Definition raise_for_status (resp : Response) : res unit :=
  if ((400 <=? status_code resp) && (status_code resp <? 600))%Z
  then Raise (Exn HTTPError (str_of_Z (status_code resp)))
  else Ok tt.

(** The reply of the inference service; reading its [text] may raise. *)
Record GenerateContentResponse := { text : res pystr }.

(** How one round trip to the database ends: it succeeds, it fails before
    the statement ran, or it fails after the statement ran (the reply is
    lost). *)
Inductive db_fault :=
| DbOk
| DbFailBefore (e : exn)
| DbFailAfter (e : exn).

(** The collaborators, as oracles over a world [W], the library codecs, and
    the fixed attributes of the [PlantDiagnosisSystem] object. *)
Record External (W : Type) := {
  (** [supabase.storage.from_(bucket).download(path)] *)
  storage_download : pystr -> pyval -> W -> res (option bytes) * W;
  (** [supabase.storage.from_(bucket).create_signed_url(path, expires_in)] *)
  storage_create_signed_url :
    pystr -> pyval -> Z -> W -> res (option dict) * W;
  (** [supabase.storage.from_(bucket).list()], the entries as printed *)
  storage_list : pystr -> W -> res (list pystr) * W;
  (** [requests.get(url, timeout=t)] *)
  requests_get : pystr -> Z -> W -> res Response * W;
  (** [Image.open(BytesIO(data))] *)
  Image_open : bytes -> res Image;
  (** [self.model.generate_content([prompt, image])] *)
  generate_content : pystr -> Image -> W -> res GenerateContentResponse * W;
  (** [json.loads(text)] *)
  json_loads : pystr -> res json;
  (** [json.dumps(obj).encode()] *)
  json_dumps_encode : json -> bytes;
  (** [data.decode('utf-8')] *)
  bytes_decode : bytes -> res pystr;
  (** the fate of the next database round trip *)
  db_transport : W -> db_fault * W;
  (** [datetime.utcnow().isoformat()] *)
  utcnow_isoformat : W -> pystr * W;
  (** [self.diagnosis_prompt] *)
  diagnosis_prompt : pystr
}.
Arguments storage_download {W} _ _ _ _.
Arguments storage_create_signed_url {W} _ _ _ _ _.
Arguments storage_list {W} _ _ _.
Arguments requests_get {W} _ _ _ _.
Arguments Image_open {W} _ _.
Arguments generate_content {W} _ _ _ _.
Arguments json_loads {W} _ _.
Arguments json_dumps_encode {W} _ _.
Arguments bytes_decode {W} _ _.
Arguments db_transport {W} _ _.
Arguments utcnow_isoformat {W} _ _.
Arguments diagnosis_prompt {W} _.

Inductive level := INFO | WARNING | ERROR.

(** What the program does to the outside, in order. *)
Inductive event :=
| EvLog (lvl : level) (template : string) (args : list pystr)
| EvSleep (seconds : Z)
| EvDownload (bucket : pystr) (path : pyval)
| EvCreateSignedUrl (bucket : pystr) (path : pyval) (expires_in : Z)
| EvStorageList (bucket : pystr)
| EvRequestsGet (url : pystr) (timeout : Z)
| EvGenerateContent (prompt : pystr) (image : Image)
| EvDbSelectNull (tbl col : pystr)
| EvDbUpdate (tbl : pystr) (id : pyval) (diagnosis updated_at : pystr)
| EvSendResponse (code : Z)
| EvSendHeader (name value : pystr)
| EvEndHeaders
| EvWfileWrite (body : bytes).

(** The state the program runs in: the world behind the oracles, the rows
    of the [images] table, and the trace of events so far.  The table is
    changed by this program only: uploads that arrive during a run are not
    modelled. *)
Record sys (W : Type) := Sys {
  world : W;
  table : list dict;
  trace : list event
}.
Arguments Sys {W} _ _ _.
Arguments world {W} _.
Arguments table {W} _.
Arguments trace {W} _.

(** The [images] table, as the database sees it. *)

(** A row is pending when its [diagnosis] column is null. *)
Definition is_pending (row : dict) : bool :=
  match get row "diagnosis" PNone with
  | PNone => true
  | _ => false
  end.

(** [.eq('id', image_id)]: the row's identifier is exactly [image_id]. *)
Definition id_matches (image_id : pyval) (row : dict) : bool :=
  bool_decide (row !! py "id" = Some image_id).

(** The row after [update({'diagnosis': d, 'updated_at': ts})]. *)
Definition set_diagnosis (d ts : pystr) (row : dict) : dict :=
  <[py "updated_at" := PStr ts]> (<[py "diagnosis" := PStr d]> row).

Definition update_rows (image_id : pyval) (d ts : pystr) (rows : list dict)
  : list dict :=
  map (fun row =>
         if id_matches image_id row then set_diagnosis d ts row else row)
      rows.

(** The rows an update returns: the matching rows, after the update. *)
Definition updated_rows (image_id : pyval) (d ts : pystr) (rows : list dict)
  : list dict :=
  map (set_diagnosis d ts) (List.filter (id_matches image_id) rows).

(** ** plant_diagnosis.py: class PlantDiagnosisSystem *)

Section PlantDiagnosisSystem.

Context {W : Type} (E : External W).

(** *** Effects *)

Definition emit (ev : event) : M (sys W) unit :=
  fun s => (Ok tt, Sys (world s) (table s) (trace s ++ [ev])).

(** [logger.info], [logger.warning], [logger.error]: the f-string's text
    and the values it interpolates. *)
Definition log (lvl : level) (template : string) (args : list pystr)
  : M (sys W) unit :=
  emit (EvLog lvl template args).

Definition call {A} (f : W -> res A * W) : M (sys W) A :=
  fun s => let '(r, w) := f (world s) in (r, Sys w (table s) (trace s)).

Definition ask {A} (f : W -> A * W) : M (sys W) A :=
  fun s => let '(a, w) := f (world s) in (Ok a, Sys w (table s) (trace s)).

Definition read_table : M (sys W) (list dict) :=
  fun s => (Ok (table s), s).

Definition write_table (rows : list dict) : M (sys W) unit :=
  fun s => (Ok tt, Sys (world s) rows (trace s)).

(** [time.sleep(n)] *)
Definition sleep (n : Z) : M (sys W) unit := emit (EvSleep n).

Definition download (bucket : pystr) (path : pyval)
  : M (sys W) (option bytes) :=
  emit (EvDownload bucket path) ;; call (storage_download E bucket path).

Definition create_signed_url (bucket : pystr) (path : pyval) (expires_in : Z)
  : M (sys W) (option dict) :=
  emit (EvCreateSignedUrl bucket path expires_in) ;;
  call (storage_create_signed_url E bucket path expires_in).

Definition list_bucket (bucket : pystr) : M (sys W) (list pystr) :=
  emit (EvStorageList bucket) ;; call (storage_list E bucket).

Definition http_get (url : pystr) (timeout : Z) : M (sys W) Response :=
  emit (EvRequestsGet url timeout) ;; call (requests_get E url timeout).

Definition model_generate_content (prompt : pystr) (image : Image)
  : M (sys W) GenerateContentResponse :=
  emit (EvGenerateContent prompt image) ;; call (generate_content E prompt image).

(** [table('images').select('*').is_('diagnosis', 'null').execute().data] *)
Definition db_select_null : M (sys W) (list dict) :=
  emit (EvDbSelectNull "images" "diagnosis") ;;
  f <- ask (db_transport E) ;;
  match f with
  | DbOk => rows <- read_table ;; ret (List.filter is_pending rows)
  | DbFailBefore e | DbFailAfter e => raise e
  end.

(** [table('images').update({...}).eq('id', image_id).execute().data] *)
Definition db_update (image_id : pyval) (d ts : pystr)
  : M (sys W) (list dict) :=
  emit (EvDbUpdate "images" image_id d ts) ;;
  f <- ask (db_transport E) ;;
  match f with
  | DbFailBefore e => raise e
  | DbOk =>
      rows <- read_table ;;
      write_table (update_rows image_id d ts rows) ;;
      ret (updated_rows image_id d ts rows)
  | DbFailAfter e =>
      rows <- read_table ;;
      write_table (update_rows image_id d ts rows) ;;
      raise e
  end.

(** *** get_image_from_storage *)

(** [bool(r)] for the reply of [create_signed_url]: [None] and the empty
    dict are falsy. *)
Definition dict_truthy (r : option dict) : bool :=
  match r with
  | Some d => negb (bool_decide (d = ∅))
  | None => false
  end.

(** [r.get(k)] on a truthy reply. *)
Definition reply_get (r : option dict) (k : pystr) : pyval :=
  match r with
  | Some d => get d k PNone
  | None => PNone
  end.

(** [v[:70]] *)
Definition slice_70 (v : pyval) : res pystr :=
  match v with
  | PStr s => Ok (slice_to 70 s)
  | PNone => Raise (Exn TypeError "'NoneType' object is not subscriptable")
  | PBool _ => Raise (Exn TypeError "'bool' object is not subscriptable")
  | PInt _ => Raise (Exn TypeError "'int' object is not subscriptable")
  end.

(** Method 1, the first inner [try]: [Some image] when the block executes
    [return image], [None] when control falls through to method 2. *)
Definition direct_download (storage_path : pyval) : M (sys W) (option Image) :=
  try_except
    (log INFO "Attempting direct download for: {storage_path}"
         [py_str storage_path] ;;
     download_response <- download "images" storage_path ;;
     if bytes_truthy download_response then
       image <- eval (Image_open E (default [] download_response)) ;;
       log INFO "Successfully downloaded image using direct download for: {storage_path}"
           [py_str storage_path] ;;
       ret (Some image)
     else
       log WARNING "Direct download for {storage_path} returned no data. Trying signed URL method."
           [py_str storage_path] ;;
       ret None)
    (fun download_error =>
       log WARNING "Direct download method for {storage_path} failed: {str(download_error)}. Trying signed URL method."
           [py_str storage_path; exn_str download_error] ;;
       ret None).

(** Method 2, the second inner [try]. *)
Definition signed_url_download (storage_path : pyval)
  : M (sys W) (option Image) :=
  try_except
    (log INFO "Attempting signed URL download for: {storage_path}"
         [py_str storage_path] ;;
     signed_url_response <- create_signed_url "images" storage_path 3600 ;;
     if dict_truthy signed_url_response
        && truthy (reply_get signed_url_response "signedURL")
     then
       let signed_url := reply_get signed_url_response "signedURL" in
       shown <- eval (slice_70 signed_url) ;;
       log INFO "Generated signed URL for {storage_path} (truncated): {signed_url[:70]}..."
           [py_str storage_path; shown] ;;
       img_response <- http_get (py_str signed_url) 30 ;;
       eval (raise_for_status img_response) ;;
       image <- eval (Image_open E (content img_response)) ;;
       log INFO "Successfully downloaded image using signed URL for: {storage_path}"
           [py_str storage_path] ;;
       ret (Some image)
     else
       let error_detail :=
         if dict_truthy signed_url_response
            && truthy (reply_get signed_url_response "error")
         then py_str (reply_get signed_url_response "error")
         else if negb (dict_truthy signed_url_response)
         then py "create_signed_url returned None or empty response."
         else py "Unknown reason" in
       log ERROR "Failed to create signed URL for {storage_path}: {error_detail}"
           [py_str storage_path; error_detail] ;;
       ret None)
    (fun e =>
       if is_HTTPError e then
         log ERROR "Signed URL download for {storage_path} failed with HTTP error: {str(http_err)}"
             [py_str storage_path; exn_str e] ;;
         ret None
       else
         log ERROR "Signed URL method for {storage_path} failed: {str(signed_url_error)}"
             [py_str storage_path; exn_str e] ;;
         ret None).

Definition get_image_from_storage (storage_path : pyval)
  : M (sys W) (option Image) :=
  try_except
    (log INFO "Attempting to download image from path: {storage_path}"
         [py_str storage_path] ;;
     direct <- direct_download storage_path ;;
     match direct with
     | Some image => ret (Some image)
     | None =>
         signed <- signed_url_download storage_path ;;
         match signed with
         | Some image => ret (Some image)
         | None =>
             log ERROR "All download attempts (direct, signed URL) failed for {storage_path}."
                 [py_str storage_path] ;;
             ret None
         end
     end)
    (fun e =>
       log ERROR "Unexpected error in get_image_from_storage for {storage_path}: {str(e)}"
           [py_str storage_path; exn_str e] ;;
       ret None).

(** *** test_storage_connection *)

Definition test_storage_connection : M (sys W) bool :=
  try_except
    (log INFO "Testing storage bucket connection..." [] ;;
     files <- list_bucket "images" ;;
     log INFO "Found {len(files)} items in root of images bucket"
         [str_of_Z (Z.of_nat (length files))] ;;
     for_each (take 5 files) (fun file => log INFO "File: {file}" [file]) ;;
     ret true)
    (fun e =>
       log ERROR "Storage connection test failed: {str(e)}" [exn_str e] ;;
       ret false).

(** *** diagnose_plant *)

(** The fence cleaning of [diagnose_plant], from [response.text] to
    [cleaned_json_text]. *)
Definition clean_json_text (response_text : pystr) : pystr :=
  let raw_response_text := strip response_text in
  let cleaned_json_text := raw_response_text in
  let cleaned_json_text :=
    if startswith cleaned_json_text "```json" then
      slice_from (length (py "```json")) cleaned_json_text
    else if startswith cleaned_json_text "```" then
      slice_from (length (py "```")) cleaned_json_text
    else cleaned_json_text in
  let cleaned_json_text :=
    if endswith cleaned_json_text "```" then
      slice_to_minus (length (py "```")) cleaned_json_text
    else cleaned_json_text in
  strip cleaned_json_text.

Definition full_prompt (user_prompt : pyval) : pystr :=
  diagnosis_prompt E ++ [10; 10] ++ py "User's description: "
  ++ py_str user_prompt.

Definition diagnose_plant (image : Image) (user_prompt : pyval)
  : M (sys W) (option pystr) :=
  try_except
    (response <- model_generate_content (full_prompt user_prompt) image ;;
     response_text <- eval (text response) ;;
     let raw_response_text := strip response_text in
     let cleaned_json_text := clean_json_text response_text in
     try_except
       (eval (json_loads E cleaned_json_text) ;;
        ret (Some cleaned_json_text))
       (fun e =>
          if is_JSONDecodeError e then
            log ERROR "Invalid JSON response from Gemini after cleaning. Error: {e}. Cleaned text attempt: '{cleaned_json_text}'. Original text from Gemini: '{raw_response_text}'"
                [exn_str e; cleaned_json_text; raw_response_text] ;;
            ret None
          else raise e))
    (fun e =>
       log ERROR "Error generating diagnosis: {str(e)}" [exn_str e] ;;
       ret None).

(** *** update_diagnosis_in_db *)

Definition update_diagnosis_in_db (image_id : pyval) (diagnosis : pystr)
  : M (sys W) bool :=
  try_except
    (updated_at <- ask (utcnow_isoformat E) ;;
     data <- db_update image_id diagnosis updated_at ;;
     match data with
     | _ :: _ =>
         log INFO "Successfully updated diagnosis for image {image_id}"
             [py_str image_id] ;;
         ret true
     | [] =>
         log ERROR "Failed to update diagnosis for image {image_id}. Response: {result}"
             [py_str image_id] ;;
         ret false
     end)
    (fun e =>
       log ERROR "Error updating database: {str(e)}" [exn_str e] ;;
       ret false).

(** *** get_new_images *)

Definition get_new_images : M (sys W) (list dict) :=
  try_except
    (data <- db_select_null ;;
     ret (match data with _ :: _ => data | [] => [] end))
    (fun e =>
       log ERROR "Error fetching new images: {str(e)}" [exn_str e] ;;
       ret []).

(** *** process_new_images *)

(** [bool(diagnosis)] for the result of [diagnose_plant]: [None] and the
    empty string are falsy. *)
Definition diagnosis_truthy (diagnosis : option pystr) : bool :=
  match diagnosis with
  | Some (_ :: _) => true
  | _ => false
  end.

(** The [try] block of the loop of [process_new_images]; a [continue] ends
    the block. *)
Definition process_record_body (image_record : dict) : M (sys W) unit :=
  image_id <- eval (getitem image_record "id") ;;
  storage_path <- eval (getitem image_record "storage_path") ;;
  let title := get image_record "title" (PStr []) in
  if negb (truthy storage_path) then
    log WARNING "Skipping image record {image_id} due to missing storage_path."
        [py_str image_id]
  else
    log INFO "Processing image {image_id}: {storage_path}"
        [py_str image_id; py_str storage_path] ;;
    image <- get_image_from_storage storage_path ;;
    match image with
    | None =>
        log ERROR "Failed to download image {image_id} from {storage_path}. Skipping."
            [py_str image_id; py_str storage_path]
    | Some image =>
        diagnosis <- diagnose_plant image title ;;
        if negb (diagnosis_truthy diagnosis) then
          log ERROR "Failed to generate diagnosis for image {image_id}. Skipping."
              [py_str image_id]
        else
          ok <- update_diagnosis_in_db image_id (default [] diagnosis) ;;
          (if ok : bool then
             log INFO "Successfully processed image {image_id}"
                 [py_str image_id]
           else
             log ERROR "Failed to update database for image {image_id} after successful diagnosis."
                 [py_str image_id]) ;;
          sleep 2
    end.

(** One iteration of the loop: the [try] block and its [except]. *)
Definition process_record (image_record : dict) : M (sys W) unit :=
  try_except
    (process_record_body image_record)
    (fun e =>
       log ERROR "Error processing image record {image_record.get('id', 'unknown')}: {str(e)}"
           [py_str (get image_record "id" (PStr "unknown")); exn_str e]).

Definition process_new_images : M (sys W) unit :=
  new_images <- get_new_images ;;
  match new_images with
  | [] => log INFO "No new images to process" []
  | _ :: _ =>
      log INFO "Found {len(new_images)} new images to process"
          [str_of_Z (Z.of_nat (length new_images))] ;;
      for_each new_images process_record
  end.

(** *** run_once *)

Definition run_once : M (sys W) unit :=
  log INFO "Running one-time diagnosis check..." [] ;;
  ok <- test_storage_connection ;;
  if negb ok then
    log ERROR "Storage connection test failed. Please check your bucket configuration and permissions."
        []
  else
    process_new_images ;;
    log INFO "One-time check completed" [].

End PlantDiagnosisSystem.

(** ** api/index.py *)

(** [int(x)] on a header value: surrounding whitespace, an optional sign,
    and ASCII digits with single underscores between them.  Header values
    are latin-1 text, in which the ASCII digits are the only decimal digits.
    [None] is a missing value. *)
Fixpoint int_digits (after_digit : bool) (s : pystr) (acc : Z) : option Z :=
  match s with
  | [] => if after_digit then Some acc else None
  | c :: r =>
      if is_digit c then int_digits true r (10 * acc + Z.of_N (c - 48))%Z
      else if (c =? 95) && after_digit then
        match r with
        | d :: _ => if is_digit d then int_digits false r acc else None
        | [] => None
        end
      else None
  end.

Definition int_of_str (s : pystr) : res Z :=
  let t := strip s in
  let '(neg, body) :=
    match t with
    | 45 :: r => (true, r)
    | 43 :: r => (false, r)
    | _ => (false, t)
    end in
  match int_digits false body 0%Z with
  | Some z => Ok (if neg then - z else z)%Z
  | None =>
      Raise (Exn ValueError
               (py "invalid literal for int() with base 10: " ++ repr_key s))
  end.

Definition py_int (x : option pystr) : res Z :=
  match x with
  | Some s => int_of_str s
  | None =>
      Raise (Exn TypeError
               "int() argument must be a string, a bytes-like object or a real number, not 'NoneType'")
  end.

(** Header names compare without regard to ASCII case. *)
Definition ascii_lower (c : N) : N :=
  if (65 <=? c) && (c <=? 90) then c + 32 else c.

(** [self.headers[name]]: the first header of that name, [None] when there
    is none. *)
Fixpoint header_get (hs : list (pystr * pystr)) (name : pystr)
  : option pystr :=
  match hs with
  | [] => None
  | (k, v) :: hs' =>
      if bool_decide (map ascii_lower k = map ascii_lower name) then Some v
      else header_get hs' name
  end.

(** [stream.read(n)]: at most [n] bytes, everything when [n] is negative. *)
Definition stream_read (data : bytes) (n : Z) : bytes :=
  if (n <? 0)%Z then data else take (Z.to_nat n) data.

Definition type_name (v : json) : pystr :=
  match v with
  | JNull => py "NoneType"
  | JBool _ => py "bool"
  | JInt _ => py "int"
  | JFloat _ => py "float"
  | JStr _ => py "str"
  | JArr _ => py "list"
  | JObj _ => py "dict"
  end.

(** [data.get(k, dflt)] on a decoded body. *)
Definition json_get (data : json) (k : pystr) (dflt : json) : res json :=
  match data with
  | JObj kv => Ok (obj_get kv k dflt)
  | _ =>
      Raise (Exn AttributeError
               (py "'" ++ type_name data
                ++ py "' object has no attribute 'get'"))
  end.

(** [v == s] for a string literal [s]. *)
Definition json_eq_str (v : json) (s : pystr) : bool :=
  match v with
  | JStr t => bool_decide (t = s)
  | _ => false
  end.

(** The request a [Handler] serves. *)
Record Request := { req_headers : list (pystr * pystr); req_rfile : bytes }.

(** A WSGI environ: its string variables and the [wsgi.input] stream. *)
Record Environ := { environ_vars : gmap (list N) (list N); wsgi_input : bytes }.

(** What [app] hands to [start_response] and returns. *)
Record WsgiResult := {
  wsgi_status : pystr;
  wsgi_headers : list (pystr * pystr);
  wsgi_body : list bytes
}.

(** The locals of [handle_diagnosis_request] that outlive an exception in
    the loop body. *)
Record locals := Locals { processed_count : Z; results : list json }.

Section Api.

Context {W : Type} (E : External W).

Definition dict_of (kv : list (string * json)) : json :=
  JObj (map (fun '(k, v) => (py k, v)) kv).

(** [results.append(entry)] *)
Definition results_append (entry : json) : M (sys W * locals) unit :=
  l <- get_locals ;;
  set_locals (Locals (processed_count l) (results l ++ [entry])).

(** [processed_count += 1] *)
Definition incr_processed_count : M (sys W * locals) unit :=
  l <- get_locals ;;
  set_locals (Locals (processed_count l + 1)%Z (results l)).

Definition error_entry (id : pyval) (message : pystr) : json :=
  dict_of [("id", of_pyval id); ("status", JStr "error");
           ("message", JStr message)].

Definition success_entry (id : pyval) (diagnosis : json) : json :=
  dict_of [("id", of_pyval id); ("status", JStr "success");
           ("diagnosis", diagnosis)].

(** The [try] block of the loop of [handle_diagnosis_request]. *)
Definition handle_record_body (image_record : dict)
  : M (sys W * locals) unit :=
  image_id <- eval (getitem image_record "id") ;;
  storage_path <- eval (getitem image_record "storage_path") ;;
  let title := get image_record "title" (PStr []) in
  if negb (truthy storage_path) then
    results_append (error_entry image_id "Missing storage path")
  else
    image <- lift (get_image_from_storage E storage_path) ;;
    match image with
    | None => results_append (error_entry image_id "Failed to download image")
    | Some image =>
        diagnosis <- lift (diagnose_plant E image title) ;;
        if negb (diagnosis_truthy diagnosis) then
          results_append (error_entry image_id "Failed to generate diagnosis")
        else
          success <-
            lift (update_diagnosis_in_db E image_id (default [] diagnosis)) ;;
          if success : bool then
            incr_processed_count ;;
            parsed <- eval (json_loads E (default [] diagnosis)) ;;
            results_append (success_entry image_id parsed)
          else
            results_append (error_entry image_id "Failed to update database")
    end.

(** One iteration of the loop: the [try] block and its [except]. *)
Definition handle_record (image_record : dict) : M (sys W * locals) unit :=
  try_except
    (handle_record_body image_record)
    (fun e =>
       results_append
         (error_entry (get image_record "id" (PStr "unknown")) (exn_str e))).

Definition handle_diagnosis_request : M (sys W) json :=
  try_except
    (new_images <- get_new_images E ;;
     match new_images with
     | [] =>
         ret (dict_of [("status", JStr "success");
                       ("message", JStr "No new images to process");
                       ("processed", JInt 0)])
     | _ :: _ =>
         out <- with_locals (Locals 0 []) (for_each new_images handle_record) ;;
         let l := snd out in
         ret (dict_of
                [("status", JStr "success");
                 ("message",
                  JStr (py "Processed " ++ str_of_Z (processed_count l)
                        ++ py " of "
                        ++ str_of_Z (Z.of_nat (length new_images))
                        ++ py " images"));
                 ("processed", JInt (processed_count l));
                 ("results", JArr (results l))])
     end)
    (fun e =>
       ret (dict_of [("status", JStr "error"); ("message", JStr (exn_str e))])).

Definition handle_test_connection : M (sys W) json :=
  success <- test_storage_connection E ;;
  ret (dict_of
         [("status", JStr (if success : bool then "success" else "error"));
          ("connection", JStr (if success : bool then "ok" else "failed"))]).

(** The dispatch on the [action] field, shared by [do_POST] and [app]. *)
Definition dispatch (post_data : bytes) : M (sys W) json :=
  body_text <- eval (bytes_decode E post_data) ;;
  data <- eval (json_loads E body_text) ;;
  action <- eval (json_get data "action" (JStr [])) ;;
  if json_eq_str action "process" then handle_diagnosis_request
  else if json_eq_str action "test_connection" then handle_test_connection
  else ret (dict_of [("status", JStr "error");
                     ("message", JStr "Invalid action")]).

Definition running_response : M (sys W) json :=
  timestamp <- ask (utcnow_isoformat E) ;;
  ret (dict_of [("status", JStr "success");
                ("message", JStr "Plant Diagnosis API is running");
                ("timestamp", JStr timestamp)]).

(** [Handler.do_GET] *)
Definition do_GET (self : Request) : M (sys W) unit :=
  emit (EvSendResponse 200) ;;
  emit (EvSendHeader "Content-type" "application/json") ;;
  emit EvEndHeaders ;;
  response <- running_response ;;
  emit (EvWfileWrite (json_dumps_encode E response)).

(** [Handler.do_POST] *)
Definition do_POST (self : Request) : M (sys W) unit :=
  emit (EvSendResponse 200) ;;
  emit (EvSendHeader "Content-type" "application/json") ;;
  emit EvEndHeaders ;;
  content_length <-
    eval (py_int (header_get (req_headers self) "Content-Length")) ;;
  let post_data := stream_read (req_rfile self) content_length in
  response <-
    try_except
      (dispatch post_data)
      (fun e =>
         if is_JSONDecodeError e then
           ret (dict_of [("status", JStr "error");
                         ("message", JStr "Invalid JSON data")])
         else
           ret (dict_of [("status", JStr "error");
                         ("message", JStr (exn_str e))])) ;;
  emit (EvWfileWrite (json_dumps_encode E response)).

(** [app(environ, start_response)] *)
Definition app (environ : Environ) : M (sys W) WsgiResult :=
  request_method <-
    eval (match environ_vars environ !! py "REQUEST_METHOD" with
          | Some m => Ok m
          | None => Raise (Exn KeyError (repr_key "REQUEST_METHOD"))
          end) ;;
  response <-
    (if bool_decide (request_method = py "POST") then
       try_except
         (content_length <-
            eval (int_of_str
                    (default (py "0")
                       (environ_vars environ !! py "CONTENT_LENGTH"))) ;;
          let post_data := stream_read (wsgi_input environ) content_length in
          dispatch post_data)
         (fun e =>
            ret (dict_of [("status", JStr "error");
                          ("message", JStr (exn_str e))]))
     else running_response) ;;
  let response_body := json_dumps_encode E response in
  ret {| wsgi_status := py "200 OK";
         wsgi_headers :=
           [(py "Content-type", py "application/json");
            (py "Content-Length",
             str_of_Z (Z.of_nat (length response_body)))];
         wsgi_body := [response_body] |}.

End Api.

(** ** api/index.py: the serverless handler *)

(** The request object the serverless runtime passes to [handler]: its
    method and what [request.json()] gives. *)
Record ServerlessRequest := {
  request_method : pystr;
  request_json : res json
}.

Section Serverless.

Context {W : Type} (E : External W).

(** [handler(request, response)]; its value is the object it hands to
    [response.json]. *)
Definition handler (request : ServerlessRequest) : M (sys W) json :=
  if bool_decide (request_method request = py "POST") then
    try_except
      (data <- eval (request_json request) ;;
       action <- eval (json_get data "action" (JStr [])) ;;
       if json_eq_str action "process" then handle_diagnosis_request E
       else if json_eq_str action "test_connection" then
         handle_test_connection E
       else ret (dict_of [("status", JStr "error");
                          ("message", JStr "Invalid action")]))
      (fun e =>
         ret (dict_of [("status", JStr "error");
                       ("message", JStr (exn_str e))]))
  else running_response E.

End Serverless.

(** ** plant_diagnosis.py: the command-line driver *)

(** [isinstance(e, ValueError)]: the class itself and its subclasses. *)
Definition is_ValueError (e : exn) : bool :=
  match exn_cls e with
  | ValueError | UnicodeDecodeError | JSONDecodeError => true
  | _ => false
  end.




Section Driver.

Context {W : Type} (E : External W).

(** The built-in [int] on a [str] argument.  It is a parameter here: on a
    command-line argument it also accepts decimal digits outside ASCII. *)
Context (int_builtin : pystr -> res Z).





(** The block of [main] that computes [interval_arg] from [sys.argv]. *)
Definition interval_from_argv (argv : list pystr) : M (sys W) Z :=
  match argv with
  | _ :: arg :: _ =>
      try_except
        (interval_arg <- eval (int_builtin arg) ;;
         if (interval_arg <=? 0)%Z then
           log WARNING "Interval must be positive. Using default 30 seconds."
               [] ;;
           ret 30%Z
         else ret interval_arg)
        (fun e =>
           if is_ValueError e then
             log WARNING "Invalid interval '{sys.argv[1]}'. Using default 30 seconds."
                 [arg] ;;
             ret 30%Z
           else raise e)
  | _ => ret 30%Z
  end.


End Driver.

(** ** A reference environment

    One concrete instance of the collaborators, on which the general
    statements below are exercised.  The codecs are implemented; the
    services answer by storage path. *)

Module Demo.

(** *** Codecs *)

Definition is_cont (b : N) : bool := (128 <=? b) && (b <=? 191).

(** Strict UTF-8: no overlong form, no surrogate, nothing above U+10FFFF. *)
Fixpoint utf8_decode (n : nat) (bs : list N) : option pystr :=
  match n with
  | O => match bs with [] => Some [] | _ => None end
  | S n' =>
      match bs with
      | [] => Some []
      | b0 :: r0 =>
          if b0 <? 128 then cons b0 <$> utf8_decode n' r0
          else
            match r0 with
            | b1 :: r1 =>
                if (194 <=? b0) && (b0 <=? 223) && is_cont b1 then
                  cons ((b0 - 192) * 64 + (b1 - 128)) <$> utf8_decode n' r1
                else
                  match r1 with
                  | b2 :: r2 =>
                      if (224 <=? b0) && (b0 <=? 239) && is_cont b1
                         && is_cont b2
                         && negb ((b0 =? 224) && (b1 <? 160))
                         && negb ((b0 =? 237) && (160 <=? b1))
                      then
                        cons (((b0 - 224) * 64 + (b1 - 128)) * 64
                              + (b2 - 128))
                          <$> utf8_decode n' r2
                      else
                        match r2 with
                        | b3 :: r3 =>
                            if (240 <=? b0) && (b0 <=? 244) && is_cont b1
                               && is_cont b2 && is_cont b3
                               && negb ((b0 =? 240) && (b1 <? 144))
                               && negb ((b0 =? 244) && (144 <=? b1))
                            then
                              cons ((((b0 - 240) * 64 + (b1 - 128)) * 64
                                     + (b2 - 128)) * 64 + (b3 - 128))
                                <$> utf8_decode n' r3
                            else None
                        | [] => None
                        end
                  | [] => None
                  end
            | [] => None
            end
      end
  end.

Definition decode (data : bytes) : res pystr :=
  match utf8_decode (length data) (map Byte.to_N data) with
  | Some s => Ok s
  | None =>
      Raise (Exn UnicodeDecodeError "'utf-8' codec can't decode bytes")
  end.

Definition loads (s : pystr) : res json :=
  match Json.loads s with
  | Some v => Ok v
  | None => Raise (Exn JSONDecodeError "Expecting value")
  end.

Definition hex_digit (d : N) : N := if d <? 10 then 48 + d else 87 + d.

Definition u_escape (c : N) : pystr :=
  [92; 117; hex_digit (c / 4096); hex_digit ((c / 256) mod 16);
   hex_digit ((c / 16) mod 16); hex_digit (c mod 16)].

(** One character of a string literal, with [ensure_ascii]. *)
Definition dump_char (c : N) : pystr :=
  if c =? 34 then [92; 34] else if c =? 92 then [92; 92]
  else if c =? 10 then [92; 110] else if c =? 13 then [92; 114]
  else if c =? 9 then [92; 116] else if c =? 8 then [92; 98]
  else if c =? 12 then [92; 102]
  else if (c <? 32) || ((127 <=? c) && (c <? 65536)) then u_escape c
  else if 65536 <=? c then
    u_escape (55296 + (c - 65536) / 1024)
    ++ u_escape (56320 + (c - 65536) mod 1024)
  else [c].

Definition dump_string (s : pystr) : pystr :=
  [34] ++ concat (map dump_char s) ++ [34].

Definition join (sep : pystr) (parts : list pystr) : pystr :=
  match parts with
  | [] => []
  | p :: ps => p ++ concat (map (fun q => sep ++ q) ps)
  end.

Fixpoint dumps (v : json) : pystr :=
  match v with
  | JNull => py "null"
  | JBool true => py "true"
  | JBool false => py "false"
  | JInt z => str_of_Z z
  | JFloat lit => lit
  | JStr s => dump_string s
  | JArr items => py "[" ++ join (py ", ") (map dumps items) ++ py "]"
  | JObj kv =>
      py "{"
      ++ join (py ", ")
           (map (fun m => dump_string (fst m) ++ py ": " ++ dumps (snd m)) kv)
      ++ py "}"
  end.

(** ASCII text as bytes. *)
Definition encode (s : pystr) : bytes := omap Byte.of_N s.

(** The output of [dumps] is ASCII, so encoding it maps code points to
    bytes one to one. *)
Definition dumps_encode (v : json) : bytes := encode (dumps v).

(** A string literal of a JSON text, for keys and values without escapes. *)
Definition quoted (s : pystr) : pystr := [34] ++ s ++ [34].

(** *** Services *)

Definition jpeg_a : bytes := [Byte.xff; Byte.xd8; Byte.x01].
Definition jpeg_b : bytes := [Byte.xff; Byte.xd8; Byte.x02].

Definition open_image (data : bytes) : res Image :=
  match data with
  | Byte.xff :: Byte.xd8 :: _ => Ok (PILImage data)
  | _ => Raise (Exn OtherException "cannot identify image file")
  end.

Definition shows (image : Image) (data : bytes) : bool :=
  match image with
  | PILImage d => bool_decide (map Byte.to_N d = map Byte.to_N data)
  end.

(** The demo world: the faults of the coming database round trips, in
    order, and whether the bucket can be listed. *)
Record world := World { db_script : list db_fault; bucket_listable : bool }.

Definition fenced_reply : pystr :=
  py "```json" ++ [10] ++ py "{}" ++ [10] ++ py "```".

Definition env : External world := {|
  storage_download := fun bucket path w =>
    if bool_decide (path = PStr (py "img/1.jpg")) then (Ok (Some jpeg_a), w)
    else if bool_decide (path = PStr (py "img/2.jpg")) then
      (Raise (Exn OtherException "storage: permission denied"), w)
    else if bool_decide (path = PStr (py "img/3.jpg")) then
      (Ok (Some jpeg_b), w)
    else (Ok None, w);
  storage_create_signed_url := fun bucket path expires_in w =>
    if bool_decide (path = PStr (py "img/2.jpg")) then
      (Ok (Some (<[py "signedURL" := PStr (py "https://signed/img/2.jpg")]> ∅)),
       w)
    else (Ok (Some (<[py "error" := PStr (py "not found")]> ∅)), w);
  storage_list := fun bucket w =>
    if bucket_listable w then (Ok [py "img"], w)
    else (Raise (Exn OtherException "bucket not found"), w);
  requests_get := fun url timeout w =>
    if bool_decide (url = py "https://signed/img/2.jpg") then
      (Ok {| status_code := 200; content := jpeg_a |}, w)
    else (Ok {| status_code := 404; content := [] |}, w);
  Image_open := open_image;
  generate_content := fun prompt image w =>
    if shows image jpeg_a then (Ok {| text := Ok fenced_reply |}, w)
    else (Ok {| text := Ok (py "I cannot help with that.") |}, w);
  json_loads := loads;
  json_dumps_encode := dumps_encode;
  bytes_decode := decode;
  db_transport := fun w =>
    match db_script w with
    | [] => (DbOk, w)
    | f :: fs => (f, World fs (bucket_listable w))
    end;
  utcnow_isoformat := fun w => (py "2024-01-01T00:00:00", w);
  diagnosis_prompt := py "You are an expert botanist and plant pathologist."
|}.

Definition row (id path : string) : dict :=
  <[py "id" := PStr (py id)]>
    (<[py "storage_path" := PStr (py path)]>
       (<[py "title" := PStr (py "yellow spots")]>
          (<[py "diagnosis" := PNone]> ∅))).

Definition start (rows : list dict) (w : world) : sys world := Sys w rows [].

End Demo.

(** ** Further environments *)

Module Scenarios.

(** The reference environment behind a content network that is down:
    every GET answers 503. *)
Definition broken_cdn : External Demo.world := {|
  storage_download := storage_download Demo.env;
  storage_create_signed_url := storage_create_signed_url Demo.env;
  storage_list := storage_list Demo.env;
  requests_get := fun url timeout w =>
    (Ok {| status_code := 503; content := [] |}, w);
  Image_open := Image_open Demo.env;
  generate_content := generate_content Demo.env;
  json_loads := json_loads Demo.env;
  json_dumps_encode := json_dumps_encode Demo.env;
  bytes_decode := bytes_decode Demo.env;
  db_transport := db_transport Demo.env;
  utcnow_isoformat := utcnow_isoformat Demo.env;
  diagnosis_prompt := diagnosis_prompt Demo.env
|}.

End Scenarios.

(** ** Vocabulary of the statements *)

(** A reply wrapped in a fenced code block: the opening marker, a language
    tag, the content between two separators, the closing marker. *)
Definition fenced (tag sep1 body sep2 : pystr) : pystr :=
  py "```" ++ tag ++ sep1 ++ body ++ sep2 ++ py "```".

Definition all_space (s : pystr) : Prop :=
  Forall (fun c => isspace c = true) s.

(** Nothing to strip on the left: the text is empty or begins with a
    character that is not whitespace. *)
Definition lstripped (s : pystr) : Prop :=
  match s with [] => True | c :: _ => isspace c = false end.

(** The direct download fails: the call raises, or it returns no data
    ([None] or empty bytes). *)
Definition direct_download_fails {W} (E : External W) (storage_path : pyval)
  (w w1 : W) : Prop :=
  (exists e, storage_download E "images" storage_path w = (Raise e, w1))
  \/ (exists b, storage_download E "images" storage_path w = (Ok b, w1)
               /\ bytes_truthy b = false).

(** The kinds of event, by the collaborator they reach. *)
Inductive kind :=
| KLog | KSleep | KFetch | KInfer | KList | KSelect | KUpdate | KHttpOut.

#[global] Instance kind_eq_dec : EqDecision kind.
Proof. solve_decision. Defined.

Definition kind_of (ev : event) : kind :=
  match ev with
  | EvLog _ _ _ => KLog
  | EvSleep _ => KSleep
  | EvDownload _ _ | EvCreateSignedUrl _ _ _ | EvRequestsGet _ _ => KFetch
  | EvGenerateContent _ _ => KInfer
  | EvStorageList _ => KList
  | EvDbSelectNull _ _ => KSelect
  | EvDbUpdate _ _ _ _ => KUpdate
  | EvSendResponse _ | EvSendHeader _ _ | EvEndHeaders | EvWfileWrite _ =>
      KHttpOut
  end.

(** All the events of [evs] are of the kinds [ks]. *)
Definition kinds_in (ks : list kind) (evs : list event) : Prop :=
  Forall (fun ev => kind_of ev ∈ ks) evs.

(** The database updates among the events: identifier and diagnosis. *)
Definition updates_of (evs : list event) : list (pyval * pystr) :=
  omap (fun ev =>
          match ev with
          | EvDbUpdate _ id d _ => Some (id, d)
          | _ => None
          end) evs.

(** A row keeps its identifier and, once diagnosed, stays diagnosed. *)
Definition row_le (row row' : dict) : Prop :=
  row' !! py "id" = row !! py "id"
  /\ (is_pending row = false -> is_pending row' = false).

Definition table_le (t t' : list dict) : Prop := Forall2 row_le t t'.

(** From [s] to [s']: the table moves along [T] and the new events are of
    the kinds [ks]. *)
Definition rel {W : Type} (T : relation (list dict)) (ks : list kind)
  (s s' : sys W) : Prop :=
  T (table s) (table s')
  /\ exists evs, trace s' = trace s ++ evs /\ kinds_in ks evs.

(** The same, for a block with locals. *)
Definition on_sys {W L : Type} (R : relation (sys W)) (sl sl' : sys W * L) : Prop :=
  R (fst sl) (fst sl').

(** Every run of [m] moves the state along [R], whether it returns or
    raises. *)
Definition respects {S A : Type} (R : relation S) (m : M S A) : Prop :=
  forall s, R s (snd (m s)).

(** The summary [handle_diagnosis_request] returns when it has found no
    pending record. *)
Definition no_new_images_response : json :=
  JObj [(py "status", JStr "success");
        (py "message", JStr "No new images to process");
        (py "processed", JInt 0)].

(** The round trip to the database ended in an error. *)
Definition query_fails {W} (E : External W) (w w' : W) (e : exn) : Prop :=
  db_transport E w = (DbFailBefore e, w')
  \/ db_transport E w = (DbFailAfter e, w').

(** The stages before the update succeed for [image_record], the fetch
    starting in state [s0]: the record has an identifier and a truthy storage
    path, the fetch returns an image, the requester returns a text that is
    not empty, and that text decodes as JSON.  [s2] is the state in which the
    update is then invoked. *)
Definition stages_succeed {W} (E : External W) (image_record : dict)
  (s0 : sys W) (image_id : pyval) (diagnosis : pystr) (s2 : sys W) : Prop :=
  exists storage_path image s1 parsed,
    image_record !! py "id" = Some image_id
    /\ image_record !! py "storage_path" = Some storage_path
    /\ truthy storage_path = true
    /\ get_image_from_storage E storage_path s0 = (Ok (Some image), s1)
    /\ diagnose_plant E image (get image_record "title" (PStr [])) s1
       = (Ok (Some diagnosis), s2)
    /\ diagnosis <> []
    /\ json_loads E diagnosis = Ok parsed.

(** A stage before the update fails: the storage path is absent or falsy,
    the fetch returns no image, or the requester returns no diagnosis (the
    inference failed or its reply does not decode). *)
Definition a_stage_fails {W} (E : External W) (image_record : dict)
  (s0 : sys W) : Prop :=
  image_record !! py "storage_path" = None
  \/ exists storage_path,
      image_record !! py "storage_path" = Some storage_path
      /\ (truthy storage_path = false
          \/ (exists s1,
                get_image_from_storage E storage_path s0 = (Ok None, s1))
          \/ (exists image s1 diagnosis s2,
                get_image_from_storage E storage_path s0
                = (Ok (Some image), s1)
                /\ diagnose_plant E image
                     (get image_record "title" (PStr [])) s1
                   = (Ok diagnosis, s2)
                /\ diagnosis_truthy diagnosis = false)).

(** The state in which [process_new_images] starts the fetch: it has logged
    the record it is about to process. *)
Definition processing_logged {W : Type} (image_record : dict) (s : sys W) : sys W :=
  Sys (world s) (table s)
    (trace s
     ++ [EvLog INFO "Processing image {image_id}: {storage_path}"
           [py_str (get image_record "id" PNone);
            py_str (get image_record "storage_path" PNone)]]).

(** Processing [image_record] took the state from [s] to [s'], the fetch
    starting in [s0]: the update was invoked at most once, and only after
    the stages before it succeeded; when one of them failed, no update was
    invoked and the table is as it was. *)
Definition mutation_guarded {W} (E : External W) (image_record : dict)
  (s0 s s' : sys W) : Prop :=
  exists evs,
    trace s' = trace s ++ evs
    /\ (updates_of evs <> [] ->
        exists image_id diagnosis s2,
          stages_succeed E image_record s0 image_id diagnosis s2
          /\ updates_of evs = [(image_id, diagnosis)])
    /\ (a_stage_fails E image_record s0 ->
        updates_of evs = [] /\ table s' = table s).

(** An entry of the results list is the outcome of [image_record]: a
    success or an error that carries the record's identifier, or the text
    unknown when the record has none. *)
Definition entry_for (image_record : dict) (entry : json) : Prop :=
  let id := get image_record "id" (PStr "unknown") in
  (exists parsed, entry = success_entry id parsed)
  \/ (exists message, entry = error_entry id message).

(** The entry reports a success. *)
Definition succeeded (entry : json) : bool :=
  match json_get entry "status" JNull with
  | Ok (JStr st) => bool_decide (st = py "success")
  | _ => false
  end.

(** The summary [handle_diagnosis_request] returns after its loop. *)
Definition summary_response (processed : Z) (total : nat)
  (entries : list json) : json :=
  JObj [(py "status", JStr "success");
        (py "message",
         JStr (py "Processed " ++ str_of_Z processed ++ py " of "
               ++ str_of_Z (Z.of_nat total) ++ py " images"));
        (py "processed", JInt processed);
        (py "results", JArr entries)].

(** Every row of [t] that carries the identifier of [image_record] is
    diagnosed. *)
Definition settled (image_record : dict) (t : list dict) : Prop :=
  exists image_id,
    image_record !! py "id" = Some image_id
    /\ forall row, row ∈ t -> id_matches image_id row = true ->
                   is_pending row = false.

(** The direct download gives [image]: it returns data that is not empty
    and opens as that image. *)
Definition direct_download_gives {W} (E : External W) (storage_path : pyval)
  (w w1 : W) (image : Image) : Prop :=
  exists data,
    storage_download E "images" storage_path w = (Ok (Some data), w1)
    /\ data <> []
    /\ Image_open E data = Ok image.

(** Method 1 fails: the download fails, or its data does not open as an
    image. *)
Definition direct_method_fails {W} (E : External W) (storage_path : pyval)
  (w w1 : W) : Prop :=
  direct_download_fails E storage_path w w1
  \/ (exists data e,
        storage_download E "images" storage_path w = (Ok (Some data), w1)
        /\ data <> []
        /\ Image_open E data = Raise e).

(** Method 2 gives [image]: a URL is signed for 3600, the GET with timeout
    30 returns a response of good status, and its content opens as that
    image. *)
Definition signed_url_gives {W} (E : External W) (storage_path : pyval)
  (w1 w3 : W) (image : Image) : Prop :=
  exists w2 reply url resp,
    storage_create_signed_url E "images" storage_path 3600 w1
    = (Ok (Some reply), w2)
    /\ reply !! py "signedURL" = Some (PStr url)
    /\ url <> []
    /\ requests_get E url 30 w2 = (Ok resp, w3)
    /\ raise_for_status resp = Ok tt
    /\ Image_open E (content resp) = Ok image.

(** No URL comes out of the signing: the call raises, its reply is [None]
    or empty or has no truthy [signedURL], or that value is not a string. *)
Definition no_signed_url {W} (E : External W) (storage_path : pyval)
  (w1 w2 : W) : Prop :=
  (exists e,
      storage_create_signed_url E "images" storage_path 3600 w1
      = (Raise e, w2))
  \/ (exists reply,
        storage_create_signed_url E "images" storage_path 3600 w1
        = (Ok reply, w2)
        /\ (dict_truthy reply && truthy (reply_get reply "signedURL") = false
            \/ exists e, slice_70 (reply_get reply "signedURL") = Raise e)).

(** A URL is signed but the GET does not give an image: the request
    raises, the status is an error status, or the content does not open. *)
Definition signed_get_fails {W} (E : External W) (storage_path : pyval)
  (w1 w3 : W) : Prop :=
  exists w2 reply url,
    storage_create_signed_url E "images" storage_path 3600 w1
    = (Ok (Some reply), w2)
    /\ reply !! py "signedURL" = Some (PStr url)
    /\ url <> []
    /\ ((exists e, requests_get E url 30 w2 = (Raise e, w3))
        \/ (exists resp,
              requests_get E url 30 w2 = (Ok resp, w3)
              /\ ((exists e, raise_for_status resp = Raise e)
                  \/ (exists e, Image_open E (content resp) = Raise e)))).

(** The events of [evs] that reach the storage service or the HTTP
    client. *)
Definition fetch_events (evs : list event) : list event :=
  List.filter (fun ev => bool_decide (kind_of ev = KFetch)) evs.

(** What [handle_test_connection] answers. *)
Definition connection_response (ok : bool) : json :=
  JObj [(py "status", JStr (if ok then py "success" else py "error"));
        (py "connection", JStr (if ok then py "ok" else py "failed"))].

(** The log lines of [test_storage_connection] for the entries it shows. *)
Definition file_lines (files : list pystr) : list event :=
  map (fun file => EvLog INFO "File: {file}" [file]) files.

(** [row'] is [row] after an update that stored [d]: its diagnosis is [d]
    and every column other than [diagnosis] and [updated_at] is as
    before. *)
Definition touched (d : pystr) (row row' : dict) : Prop :=
  row' !! py "diagnosis" = Some (PStr d)
  /\ forall k, k <> py "diagnosis" -> k <> py "updated_at" ->
               row' !! k = row !! k.

(** The inference requests among the events. *)
Definition infer_events (evs : list event) : list event :=
  List.filter (fun ev => bool_decide (kind_of ev = KInfer)) evs.

(** [x] is a contiguous part of [s]. *)
Definition part_of (x s : pystr) : Prop :=
  exists pre post, s = pre ++ x ++ post.

(** Two states agree on what lies outside the program: the world and the
    table.  Their traces may differ. *)
Definition same_db {W : Type} (s s' : sys W) : Prop :=
  world s = world s' /\ table s = table s'.

(** The computation does not read the trace: from states that agree, it
    gives the same result and states that agree. *)
Definition trace_blind {W A : Type} (m : M (sys W) A) : Prop :=
  forall s s',
    same_db s s' ->
    fst (m s) = fst (m s') /\ same_db (snd (m s)) (snd (m s')).

(** The durations of the sleeps among the events. *)
Definition sleeps_of (evs : list event) : list Z :=
  omap (fun ev => match ev with EvSleep n => Some n | _ => None end) evs.





(** What [do_POST] sends before it reads the request. *)
Definition response_head : list event :=
  [EvSendResponse 200;
   EvSendHeader "Content-type" "application/json";
   EvEndHeaders].



(** The answer to a request that is not a POST. *)
Definition running (timestamp : pystr) : json :=
  JObj [(py "status", JStr "success");
        (py "message", JStr "Plant Diagnosis API is running");
        (py "timestamp", JStr timestamp)].

(** The number of events of kind [k]. *)
Definition count_kind (k : kind) (evs : list event) : nat :=
  length (List.filter (fun ev => bool_decide (kind_of ev = k)) evs).


(** From [s] to [s'] the rows only move from pending to diagnosed, the
    new events [evs] are of the kinds [ks], and every sleep among them
    lasts one of [durations]. *)
Definition advances {W : Type} (ks : list kind) (durations : list Z)
  (s s' : sys W) (evs : list event) : Prop :=
  table_le (table s) (table s')
  /\ trace s' = trace s ++ evs
  /\ kinds_in ks evs
  /\ Forall (fun n => n ∈ durations) (sleeps_of evs).


(** Why a record is set aside before any fetch, if it is: the identifier
    shown and the text given.  A record without [id] or without
    [storage_path] stops at the KeyError of the lookup; a storage path
    that is present but falsy is reported as missing. *)
Definition skip_reason (image_record : dict) : option (pyval * pystr) :=
  match image_record !! py "id" with
  | None => Some (PStr "unknown", repr_key "id")
  | Some image_id =>
      match image_record !! py "storage_path" with
      | None => Some (image_id, repr_key "storage_path")
      | Some storage_path =>
          if truthy storage_path then None
          else Some (image_id, py "Missing storage path")
      end
  end.

(** * Properties *)

(** ** Strings *)

Section Strings.

Implicit Types s t p q : pystr.

Lemma startswith_app p s : startswith (p ++ s) p = true.
Proof.
  induction p as [|a p IH]; simpl; [done|].
  by rewrite N.eqb_refl, IH.
Qed.

Lemma startswith_prefix s p q :
  startswith s (p ++ q) = true -> startswith s p = true.
Proof.
  revert s; induction p as [|a p IH]; intros [|b s]; simpl; try done.
  intros [-> H]%andb_true_iff. by rewrite (IH _ H).
Qed.

(** A text extended by something whose first character does not occur in
    [p] starts with [p] only if the text itself does. *)
Lemma startswith_extend s x rest p :
  Forall (fun a => a <> x) p ->
  startswith (s ++ x :: rest) p = true -> startswith s p = true.
Proof.
  intros Hp; revert s; induction Hp as [|a p Ha Hp IH]; intros s; [by destruct s|].
  destruct s as [|b s]; simpl.
  - intros [Hax _]%andb_true_iff. by apply N.eqb_eq in Hax.
  - intros [-> H]%andb_true_iff. by rewrite (IH _ H).
Qed.

Lemma endswith_app s p : endswith (s ++ p) p = true.
Proof. unfold endswith. rewrite rev_app_distr. apply startswith_app. Qed.

Lemma lstrip_spaces ws s : all_space ws -> lstrip (ws ++ s) = lstrip s.
Proof. induction 1 as [|c ws Hc _ IH]; simpl; [done|]. by rewrite Hc. Qed.

Lemma lstrip_split s : exists ws, s = ws ++ lstrip s /\ all_space ws.
Proof.
  induction s as [|c s (ws & Hs & Hws)]; simpl.
  - exists []. split; [done|constructor].
  - destruct (isspace c) eqn:Hc.
    + exists (c :: ws). split; [by rewrite Hs at 1|by constructor].
    + exists []. split; [done|constructor].
Qed.

Lemma lstripped_lstrip s : lstripped (lstrip s).
Proof.
  induction s as [|c s IH]; simpl; [done|].
  destruct (isspace c) eqn:Hc; [done|by simpl].
Qed.

Lemma lstrip_id s : lstripped s -> lstrip s = s.
Proof. destruct s as [|c s]; simpl; [done|]. by intros ->. Qed.

Lemma all_space_rev ws : all_space ws -> all_space (rev ws).
Proof. apply List.Forall_rev. Qed.

Lemma rstrip_spaces s ws : all_space ws -> rstrip (s ++ ws) = rstrip s.
Proof.
  intros Hws. unfold rstrip.
  by rewrite rev_app_distr, lstrip_spaces by by apply all_space_rev.
Qed.

Lemma rstrip_split s : exists ws, s = rstrip s ++ ws /\ all_space ws.
Proof.
  destruct (lstrip_split (rev s)) as (ws & Hs & Hws).
  exists (rev ws). split.
  - unfold rstrip. rewrite <- rev_app_distr, <- Hs. by rewrite rev_involutive.
  - by apply all_space_rev.
Qed.

Lemma rstrip_id s : lstripped (rev s) -> rstrip s = s.
Proof. intros H. unfold rstrip. by rewrite (lstrip_id _ H), rev_involutive. Qed.

Lemma rstrip_rstripped s : lstripped (rev (rstrip s)).
Proof. unfold rstrip. rewrite rev_involutive. apply lstripped_lstrip. Qed.

Lemma rstrip_lstripped s : lstripped s -> lstripped (rstrip s).
Proof.
  intros H. destruct (rstrip_split s) as (ws & Hs & _).
  destruct (rstrip s) as [|c r]; [done|].
  rewrite Hs in H. by simpl in *.
Qed.

Lemma strip_idemp s : strip (strip s) = strip s.
Proof.
  unfold strip at 1.
  rewrite (lstrip_id (strip s)).
  - apply rstrip_id, rstrip_rstripped.
  - apply rstrip_lstripped, lstripped_lstrip.
Qed.

Lemma strip_spaces ws1 s ws2 :
  all_space ws1 -> all_space ws2 -> strip (ws1 ++ s ++ ws2) = strip s.
Proof.
  intros H1 H2. unfold strip. rewrite (lstrip_spaces _ _ H1).
  destruct (lstrip_split s) as (ws & Hs & Hws).
  destruct (lstrip s) as [|c r] eqn:Hl.
  - rewrite app_nil_r in Hs. subst ws.
    replace (s ++ ws2) with ((s ++ ws2) ++ []) by apply app_nil_r.
    by rewrite lstrip_spaces by by apply Forall_app.
  - assert (Hc : isspace c = false).
    { pose proof (lstripped_lstrip s) as H. by rewrite Hl in H. }
    rewrite Hs at 1. rewrite <- app_assoc, lstrip_spaces by done.
    simpl. rewrite Hc, app_comm_cons. by rewrite rstrip_spaces.
Qed.

(** A text between two characters that are not whitespace is left alone. *)
Lemma strip_framed a s b :
  isspace a = false -> isspace b = false ->
  strip (a :: s ++ [b]) = a :: s ++ [b].
Proof.
  intros Ha Hb. unfold strip. rewrite lstrip_id by done.
  apply rstrip_id. rewrite app_comm_cons, rev_app_distr. by simpl.
Qed.

End Strings.
(** ** The fence cleaning of diagnose_plant *)

Section FenceCleaning.

Implicit Types s inner body tag : pystr.

Lemma startswith_app_app p s q :
  startswith (p ++ s) (p ++ q) = startswith s q.
Proof. induction p as [|a p IH]; simpl; [done|]. by rewrite N.eqb_refl. Qed.

Lemma strip_fence_text x :
  strip (py "```" ++ x ++ py "```") = py "```" ++ x ++ py "```".
Proof.
  change (py "```") with [96; 96; 96].
  replace ([96; 96; 96] ++ x ++ [96; 96; 96])
    with (96 :: ([96; 96] ++ x ++ [96; 96]) ++ [96])
    by (simpl; by rewrite <- !app_assoc).
  by apply strip_framed.
Qed.

Lemma slice_to_minus_app s p : slice_to_minus (length p) (s ++ p) = s.
Proof.
  unfold slice_to_minus. rewrite length_app, Nat.add_sub.
  apply take_app_length.
Qed.

Lemma strip_json_fence inner :
  strip (py "```json" ++ inner ++ py "```") = py "```json" ++ inner ++ py "```".
Proof.
  change (py "```json") with (py "```" ++ py "json").
  rewrite <- !app_assoc, (app_assoc (py "json")). apply strip_fence_text.
Qed.

Lemma clean_fenced_json inner :
  clean_json_text (py "```json" ++ inner ++ py "```") = strip inner.
Proof.
  unfold clean_json_text. rewrite !strip_json_fence, !startswith_app.
  unfold slice_from. rewrite !drop_app_length.
  by rewrite endswith_app, slice_to_minus_app.
Qed.

Lemma clean_fenced_plain inner :
  startswith (inner ++ py "```") "json" = false ->
  clean_json_text (py "```" ++ inner ++ py "```") = strip inner.
Proof.
  intros H. unfold clean_json_text. rewrite !strip_fence_text.
  change (py "```json") with (py "```" ++ py "json").
  rewrite !startswith_app_app, !H, !startswith_app.
  unfold slice_from. rewrite !drop_app_length.
  by rewrite endswith_app, slice_to_minus_app.
Qed.

Lemma clean_bare body :
  startswith (strip body) "```" = false ->
  endswith (strip body) "```" = false ->
  clean_json_text body = strip body.
Proof.
  intros H1 H2. unfold clean_json_text.
  destruct (startswith (strip body) (py "```json")) eqn:H3.
  - change (py "```json") with (py "```" ++ py "json") in H3.
    apply startswith_prefix in H3. congruence.
  - rewrite H1, H2. apply strip_idemp.
Qed.

(** What follows the content of a fenced reply begins with whitespace or a
    backtick, neither of which occurs in the word json. *)
Lemma json_not_continued s sep2 :
  all_space sep2 ->
  startswith s "json" = false ->
  startswith ((s ++ sep2) ++ py "```") "json" = false.
Proof.
  intros Hsp Hs. rewrite <- app_assoc.
  destruct (startswith (s ++ sep2 ++ py "```") (py "json")) eqn:H; [|done].
  destruct sep2 as [|c sep2].
  - apply (startswith_extend s 96 [96; 96]) in H; [congruence|].
    repeat constructor; discriminate.
  - apply Forall_cons in Hsp as [Hc _].
    apply (startswith_extend s c (sep2 ++ py "```")) in H; [congruence|].
    repeat constructor; intros <-; discriminate.
Qed.

(** C5, as stated, fails.  A reply fenced with the tag python is cleaned to
    text that is not JSON although its content is; content that is itself
    fenced is unwrapped once less than when it stands alone; and without tag
    or separator, content that begins with the word json loses that word. *)
Lemma fence_cleaning_counterexample :
  Demo.loads (clean_json_text (fenced "python" [10] "{}" [10]))
    <> Demo.loads (clean_json_text "{}")
  /\ Demo.loads (clean_json_text (fenced "json" [10] "```1```" [10]))
    <> Demo.loads (clean_json_text "```1```")
  /\ Demo.loads (clean_json_text (fenced [] [] "json1" []))
    <> Demo.loads (clean_json_text "json1").
Proof. vm_compute. repeat split; discriminate. Qed.

(** C5, amended: for the tag json, or for no tag when what follows the
    opening marker does not begin with the word json, a fenced reply whose
    content (stripped) neither begins nor ends with a fence marker is cleaned
    to the same text as the content alone, and so decodes to the same JSON
    value under every decoder. *)
Theorem fence_cleaning_same_parse (tag sep1 body sep2 : pystr) :
  all_space sep1 -> all_space sep2 ->
  startswith (strip body) "```" = false ->
  endswith (strip body) "```" = false ->
  tag = py "json" \/ (tag = [] /\ startswith (sep1 ++ body) "json" = false) ->
  clean_json_text (fenced tag sep1 body sep2) = clean_json_text body
  /\ forall W (E : External W),
       json_loads E (clean_json_text (fenced tag sep1 body sep2))
       = json_loads E (clean_json_text body).
Proof.
  intros H1 H2 Hs He Htag.
  assert (clean_json_text (fenced tag sep1 body sep2) = clean_json_text body)
    as Heq; [|split; [done|intros; by rewrite Heq]].
  rewrite (clean_bare body Hs He). unfold fenced.
  destruct Htag as [->|[-> Hj]].
  - replace (py "```" ++ py "json" ++ sep1 ++ body ++ sep2 ++ py "```")
      with (py "```json" ++ (sep1 ++ body ++ sep2) ++ py "```").
    + rewrite clean_fenced_json. by apply strip_spaces.
    + change (py "```json") with (py "```" ++ py "json").
      by rewrite <- !app_assoc.
  - replace (py "```" ++ [] ++ sep1 ++ body ++ sep2 ++ py "```")
      with (py "```" ++ (sep1 ++ body ++ sep2) ++ py "```")
      by (by rewrite app_nil_l, <- !app_assoc).
    rewrite clean_fenced_plain; [by apply strip_spaces|].
    rewrite (app_assoc sep1). by apply json_not_continued.
Qed.

Lemma fence_cleaning_same_parse_witness :
  (clean_json_text (fenced "json" " " "{}" " ") = clean_json_text "{}"
   /\ forall W (E : External W),
        json_loads E (clean_json_text (fenced "json" " " "{}" " "))
        = json_loads E (clean_json_text "{}"))
  /\ (clean_json_text (fenced [] [10] "[1, 2]" [10]) = clean_json_text "[1, 2]"
      /\ forall W (E : External W),
           json_loads E (clean_json_text (fenced [] [10] "[1, 2]" [10]))
           = json_loads E (clean_json_text "[1, 2]")).
Proof.
  split.
  - apply (fence_cleaning_same_parse "json" " " "{}" " ");
      [repeat constructor| repeat constructor | reflexivity | reflexivity
      | by left ].
  - apply (fence_cleaning_same_parse [] [10] "[1, 2]" [10]);
      [repeat constructor| repeat constructor | reflexivity | reflexivity
      | right; split; reflexivity ].
Defined.

End FenceCleaning.

(** ** The image fetcher *)

Section Fetcher.

Context {W : Type} (E : External W).

Lemma try_except_never_raises {S A} (m : M S A) (h : exn -> M S A) :
  (forall e s, exists a s', h e s = (Ok a, s')) ->
  forall s, exists a s', try_except m h s = (Ok a, s').
Proof.
  intros Hh s. unfold try_except.
  destruct (m s) as [[a|e] s']; [by eauto|apply Hh].
Qed.

(** C4: whatever the storage service, the HTTP client and the image decoder
    do, [get_image_from_storage] returns an image or [None]; it never
    raises. *)
Theorem get_image_from_storage_never_raises (storage_path : pyval) (s : sys W) :
  exists (image : option Image) (s' : sys W),
    get_image_from_storage E storage_path s = (Ok image, s').
Proof.
  apply try_except_never_raises. intros e s0. by eexists _, _.
Qed.

(** C3: when the direct download fails but a signed URL is minted and the
    GET of that URL returns an image, [get_image_from_storage] returns that
    image; the URL is signed for 3600 and fetched with timeout 30. *)
Theorem signed_url_fallback (storage_path : pyval) (s : sys W) (w1 w2 w3 : W)
    (reply : dict) (url : pystr) (resp : Response) (image : Image) :
  direct_download_fails E storage_path (world s) w1 ->
  storage_create_signed_url E "images" storage_path 3600 w1
    = (Ok (Some reply), w2) ->
  reply !! py "signedURL" = Some (PStr url) ->
  url <> [] ->
  requests_get E url 30 w2 = (Ok resp, w3) ->
  raise_for_status resp = Ok tt ->
  Image_open E (content resp) = Ok image ->
  exists evs,
    get_image_from_storage E storage_path s
      = (Ok (Some image), Sys w3 (table s) (trace s ++ evs))
    /\ EvCreateSignedUrl "images" storage_path 3600 ∈ evs
    /\ EvRequestsGet url 30 ∈ evs
    /\ (forall b p x, EvCreateSignedUrl b p x ∈ evs -> x = 3600%Z)
    /\ (forall u t, EvRequestsGet u t ∈ evs -> t = 30%Z).
Proof.
  intros Hd Hsign Hurl Hne Hget Hst Himg.
  assert (Ht : dict_truthy (Some reply)
               && truthy (reply_get (Some reply) "signedURL") = true).
  { unfold dict_truthy, reply_get, get. rewrite Hurl. simpl.
    destruct url; [done|]. rewrite andb_true_r. apply negb_true_iff.
    apply bool_decide_eq_false. intros ->. by rewrite lookup_empty in Hurl. }
  assert (Hg : reply_get (Some reply) "signedURL" = PStr url).
  { unfold reply_get, get. by rewrite Hurl. }
  unfold get_image_from_storage, direct_download, signed_url_download,
    download, create_signed_url, http_get, log, emit, call, bind, try_except,
    ret, eval.
  destruct s as [w t tr]. simpl in *.
  destruct Hd as [[e Hd]|(b & Hd & Hb)]; rewrite Hd; simpl; [|rewrite Hb; simpl];
    rewrite Hsign; simpl; rewrite Ht, Hg; simpl; rewrite Hget; simpl;
    rewrite Hst, Himg; simpl; rewrite <- !app_assoc; simpl;
    (eexists; split; [reflexivity|]);
    (split; [apply list_elem_of_In; simpl; auto 20|]);
    (split; [apply list_elem_of_In; simpl; auto 20|]);
    (split; [intros ? ? ? Hin%list_elem_of_In|intros ? ? Hin%list_elem_of_In]);
    simpl in Hin; intuition congruence.
Qed.

End Fetcher.

Lemma signed_url_fallback_witness :
  let w := Demo.World [] true in
  let url := py "https://signed/img/2.jpg" in
  exists evs,
    get_image_from_storage Demo.env (PStr "img/2.jpg") (Demo.start [] w)
      = (Ok (Some (PILImage Demo.jpeg_a)), Sys w [] ([] ++ evs))
    /\ EvCreateSignedUrl "images" (PStr "img/2.jpg") 3600 ∈ evs
    /\ EvRequestsGet url 30 ∈ evs
    /\ (forall b p x, EvCreateSignedUrl b p x ∈ evs -> x = 3600%Z)
    /\ (forall u t, EvRequestsGet u t ∈ evs -> t = 30%Z).
Proof.
  intros w url.
  apply (signed_url_fallback Demo.env (PStr "img/2.jpg") (Demo.start [] w)
           w w w (<[py "signedURL" := PStr url]> ∅) url
           {| status_code := 200; content := Demo.jpeg_a |}
           (PILImage Demo.jpeg_a)).
  - left. eexists. reflexivity.
  - reflexivity.
  - reflexivity.
  - discriminate.
  - reflexivity.
  - reflexivity.
  - reflexivity.
Defined.

(** ** The diagnosis requester *)

Section Requester.

Context {W : Type} (E : External W).

(** A diagnosis that is returned has been accepted by the decoder. *)
Lemma diagnose_plant_Some image user_prompt s d s' :
  diagnose_plant E image user_prompt s = (Ok (Some d), s') ->
  exists j, json_loads E d = Ok j.
Proof.
  unfold diagnose_plant, model_generate_content, log, emit, call, bind,
    try_except, ret, raise, eval.
  destruct s as [w t tr]; simpl.
  destruct (generate_content E _ image w) as [[resp|e] w1]; simpl;
    [|intros; simplify_eq].
  destruct (text resp) as [txt|e]; simpl; [|intros; simplify_eq].
  destruct (json_loads E (clean_json_text txt)) as [j|e] eqn:Hj; simpl.
  - intros; simplify_eq. eauto.
  - destruct (is_JSONDecodeError e); simpl; intros; simplify_eq.
Qed.

Lemma diagnose_plant_never_raises image user_prompt s :
  exists diagnosis s', diagnose_plant E image user_prompt s = (Ok diagnosis, s').
Proof.
  apply try_except_never_raises. intros e s0. by eexists _, _.
Qed.

(** C6: once the inference service has replied with text, the result of
    [diagnose_plant] is decided by the decoder alone: the cleaned text
    itself when it decodes, [None] when it does not. *)
Theorem diagnose_plant_result image user_prompt s resp w' reply_text :
  generate_content E (full_prompt E user_prompt) image (world s)
    = (Ok resp, w') ->
  text resp = Ok reply_text ->
  let cleaned := clean_json_text reply_text in
  exists s',
    diagnose_plant E image user_prompt s
      = (Ok (match json_loads E cleaned with
             | Ok _ => Some cleaned
             | Raise _ => None
             end), s')
    /\ table s' = table s.
Proof.
  intros Hgen Htext cleaned.
  unfold diagnose_plant, model_generate_content, log, emit, call, bind,
    try_except, ret, raise, eval.
  destruct s as [w t tr]; simpl in *. rewrite Hgen; simpl. rewrite Htext; simpl.
  fold cleaned. destruct (json_loads E cleaned) as [j|e]; simpl.
  - by eexists.
  - destruct (is_JSONDecodeError e); simpl; by eexists.
Qed.

End Requester.

Lemma diagnose_plant_result_witness :
  let s := Demo.start [] (Demo.World [] true) in
  exists s',
    diagnose_plant Demo.env (PILImage Demo.jpeg_a) (PStr "yellow spots") s
      = (Ok (match json_loads Demo.env (clean_json_text Demo.fenced_reply) with
             | Ok _ => Some (clean_json_text Demo.fenced_reply)
             | Raise _ => None
             end), s')
    /\ table s' = table s.
Proof.
  intros s.
  apply (diagnose_plant_result Demo.env (PILImage Demo.jpeg_a)
           (PStr "yellow spots") s {| text := Ok Demo.fenced_reply |}
           (Demo.World [] true) Demo.fenced_reply); reflexivity.
Defined.

(** ** A small program logic: relations every run respects *)

Section Respects.

Context {S : Type} (R : relation S) `{!PreOrder R}.

Lemma respects_ret {A} (a : A) : respects R (ret a).
Proof. intros s. simpl. reflexivity. Qed.

Lemma respects_raise {A} (e : exn) : respects R (raise (A:=A) e).
Proof. intros s. simpl. reflexivity. Qed.

Lemma respects_eval {A} (r : res A) : respects R (eval r).
Proof. intros s. simpl. reflexivity. Qed.

Lemma respects_bind {A B} (m : M S A) (k : A -> M S B) :
  respects R m -> (forall a, respects R (k a)) -> respects R (bind m k).
Proof.
  intros Hm Hk s. unfold bind. specialize (Hm s).
  destruct (m s) as [[a|e] s1]; simpl in *; [|done].
  etrans; [exact Hm|apply Hk].
Qed.

Lemma respects_try_except {A} (m : M S A) (h : exn -> M S A) :
  respects R m -> (forall e, respects R (h e)) -> respects R (try_except m h).
Proof.
  intros Hm Hh s. unfold try_except. specialize (Hm s).
  destruct (m s) as [[a|e] s1]; simpl in *; [done|].
  etrans; [exact Hm|apply Hh].
Qed.

Lemma respects_for_each {A} (l : list A) (f : A -> M S unit) :
  (forall x, respects R (f x)) -> respects R (for_each l f).
Proof.
  intros Hf. induction l as [|x l IH]; simpl.
  - apply respects_ret.
  - apply respects_bind; [apply Hf|by intros _].
Qed.

End Respects.

Section Locals.

Context {W L : Type} (R : relation (sys W)) `{!PreOrder R}.

#[global] Instance on_sys_preorder : PreOrder (on_sys (L:=L) R).
Proof.
  split.
  - intros sl. unfold on_sys. reflexivity.
  - intros a b c. unfold on_sys. apply transitivity.
Qed.

Lemma respects_lift {A} (m : M (sys W) A) :
  respects R m -> respects (on_sys (L:=L) R) (lift m).
Proof.
  intros Hm [s l]. unfold lift, on_sys. specialize (Hm s). simpl.
  by destruct (m s).
Qed.

Lemma respects_get_locals : respects (on_sys (L:=L) R) get_locals.
Proof. intros sl. unfold on_sys. simpl. reflexivity. Qed.

Lemma respects_set_locals (l : L) : respects (on_sys R) (set_locals l).
Proof. intros sl. unfold on_sys. simpl. reflexivity. Qed.

Lemma respects_with_locals {A} (l0 : L) (m : M (sys W * L) A) :
  respects (on_sys R) m -> respects R (with_locals l0 m).
Proof.
  intros Hm s. unfold with_locals. specialize (Hm (s, l0)). unfold on_sys in Hm.
  by destruct (m (s, l0)) as [[a|e] [s' l]].
Qed.

End Locals.

Section Rel.

Context {W : Type} (T : relation (list dict)) `{!PreOrder T}.

Implicit Types ks : list kind.

#[global] Instance rel_preorder ks : PreOrder (rel (W:=W) T ks).
Proof.
  split.
  - intros s. split; [reflexivity|]. exists []. split; [by rewrite app_nil_r|].
    constructor.
  - intros a b c [Hab (e1 & H1 & K1)] [Hbc (e2 & H2 & K2)]. split.
    + by etrans.
    + exists (e1 ++ e2). split; [by rewrite H2, H1, app_assoc|].
      by apply Forall_app.
Qed.

Lemma respects_emit ks ev : kind_of ev ∈ ks -> respects (rel (W:=W) T ks) (emit ev).
Proof.
  intros Hk s. split; [reflexivity|]. exists [ev]. split; [done|].
  by repeat constructor.
Qed.

Lemma respects_log ks lvl template args :
  KLog ∈ ks -> respects (rel (W:=W) T ks) (log lvl template args).
Proof. intros Hk. by apply respects_emit. Qed.

Lemma respects_call {A} ks (f : W -> res A * W) : respects (rel T ks) (call f).
Proof.
  intros s. unfold call. destruct (f (world s)) as [r w]. simpl.
  split; [reflexivity|]. exists []. split; [by rewrite app_nil_r|constructor].
Qed.

Lemma respects_ask {A} ks (f : W -> A * W) : respects (rel T ks) (ask f).
Proof.
  intros s. unfold ask. destruct (f (world s)) as [r w]. simpl.
  split; [reflexivity|]. exists []. split; [by rewrite app_nil_r|constructor].
Qed.

Lemma respects_read_table ks : respects (rel (W:=W) T ks) read_table.
Proof. intros s. simpl. reflexivity. Qed.

End Rel.

(** ** What each method may do to the state *)

Ltac kind_side :=
  simpl; first [assumption | apply (bool_decide_unpack _); vm_compute; exact I].

Ltac respects_with tac :=
  repeat first
    [ tac
    | (apply respects_ret; apply _) | (apply respects_raise; apply _)
    | (apply respects_eval; apply _)
    | (apply respects_call; apply _) | (apply respects_ask; apply _)
    | (apply respects_read_table; apply _)
    | (apply respects_get_locals; apply _)
    | (apply respects_set_locals; apply _)
    | (apply respects_log; [apply _|kind_side])
    | (apply respects_emit; [apply _|kind_side])
    | (apply respects_bind; [apply _ | | intros ? ])
    | (apply respects_try_except; [apply _ | | intros ? ])
    | (apply respects_for_each; [apply _ | intros ?])
    | match goal with
      | |- respects _ (if ?b then _ else _) => destruct b
      | |- respects _ (match ?x with _ => _ end) => destruct x
      end ].

Ltac respects_go := respects_with fail.

#[global] Instance row_le_preorder : PreOrder row_le.
Proof.
  split.
  - by intros row.
  - intros a b c [H1 H2] [H3 H4]. split; [congruence|auto].
Qed.

#[global] Instance table_le_preorder : PreOrder table_le.
Proof.
  split.
  - intros t. induction t; by constructor.
  - intros a b c. apply Forall2_trans. intros x y z. apply transitivity.
Qed.

Section Methods.

Context {W : Type} (E : External W).
Context (T : relation (list dict)) `{!PreOrder T}.

Implicit Types ks : list kind.

Lemma get_image_from_storage_respects ks storage_path :
  KLog ∈ ks -> KFetch ∈ ks ->
  respects (rel T ks) (get_image_from_storage E storage_path).
Proof.
  intros HL HF.
  unfold get_image_from_storage, direct_download, signed_url_download,
    download, create_signed_url, http_get.
  respects_go.
Qed.

Lemma diagnose_plant_respects ks image user_prompt :
  KLog ∈ ks -> KInfer ∈ ks ->
  respects (rel T ks) (diagnose_plant E image user_prompt).
Proof.
  intros HL HI. unfold diagnose_plant, model_generate_content. respects_go.
Qed.

Lemma test_storage_connection_respects ks :
  KLog ∈ ks -> KList ∈ ks ->
  respects (rel T ks) (test_storage_connection E).
Proof.
  intros HL HI. unfold test_storage_connection, list_bucket. respects_go.
Qed.

Lemma get_new_images_respects ks :
  KLog ∈ ks -> KSelect ∈ ks -> respects (rel T ks) (get_new_images E).
Proof.
  intros HL HS. unfold get_new_images, db_select_null. respects_go.
Qed.

End Methods.

Section Updater.

Context {W : Type} (E : External W).

Implicit Types ks : list kind.

Lemma set_diagnosis_id d ts row :
  set_diagnosis d ts row !! py "id" = row !! py "id".
Proof. unfold set_diagnosis. by rewrite !lookup_insert_ne by done. Qed.

Lemma set_diagnosis_not_pending d ts row :
  is_pending (set_diagnosis d ts row) = false.
Proof.
  unfold is_pending, get, set_diagnosis.
  by rewrite lookup_insert_ne, lookup_insert_eq by done.
Qed.

Lemma update_rows_le image_id d ts rows :
  table_le rows (update_rows image_id d ts rows).
Proof.
  unfold table_le, update_rows. induction rows as [|row rows IH]; simpl;
    constructor; [|done].
  destruct (id_matches image_id row); [|done].
  split; [apply set_diagnosis_id|by rewrite set_diagnosis_not_pending].
Qed.

Lemma db_update_respects ks image_id d ts :
  KUpdate ∈ ks -> respects (rel table_le ks) (db_update E image_id d ts).
Proof.
  intros HU s. unfold db_update, emit, ask, read_table, write_table, bind, ret,
    raise.
  destruct s as [w t tr]; simpl.
  destruct (db_transport E w) as [[|e|e] w1]; simpl;
    (split; [first [reflexivity|apply update_rows_le]|]);
    (exists [EvDbUpdate "images" image_id d ts]; split; [done|]);
    by repeat constructor.
Qed.

Lemma update_diagnosis_in_db_respects ks image_id diagnosis :
  KLog ∈ ks -> KUpdate ∈ ks ->
  respects (rel table_le ks) (update_diagnosis_in_db E image_id diagnosis).
Proof.
  intros HL HU. unfold update_diagnosis_in_db.
  respects_with ltac:(by apply db_update_respects).
Qed.

End Updater.

Ltac respects_method :=
  first
    [ (apply get_image_from_storage_respects; first [apply _|kind_side])
    | (apply diagnose_plant_respects; first [apply _|kind_side])
    | (apply update_diagnosis_in_db_respects; first [apply _|kind_side])
    | (apply get_new_images_respects; first [apply _|kind_side])
    | (apply test_storage_connection_respects; first [apply _|kind_side])
    | apply respects_lift
    | apply respects_with_locals ].

Section Orchestrators.

Context {W : Type} (E : External W).

Implicit Types ks : list kind.

Lemma process_record_respects ks image_record :
  KLog ∈ ks -> KSleep ∈ ks -> KFetch ∈ ks -> KInfer ∈ ks -> KUpdate ∈ ks ->
  respects (rel table_le ks) (process_record E image_record).
Proof.
  intros. unfold process_record, process_record_body, sleep.
  respects_with respects_method.
Qed.

Lemma process_new_images_respects ks :
  KLog ∈ ks -> KSleep ∈ ks -> KFetch ∈ ks -> KInfer ∈ ks -> KUpdate ∈ ks ->
  KSelect ∈ ks ->
  respects (rel table_le ks) (process_new_images E).
Proof.
  intros. unfold process_new_images.
  respects_with ltac:(first [by apply process_record_respects|respects_method]).
Qed.

Lemma handle_record_respects ks image_record :
  KLog ∈ ks -> KFetch ∈ ks -> KInfer ∈ ks -> KUpdate ∈ ks ->
  respects (on_sys (rel table_le ks)) (handle_record E image_record).
Proof.
  intros. unfold handle_record, handle_record_body, results_append,
    incr_processed_count.
  respects_with respects_method.
Qed.

Lemma handle_diagnosis_request_respects ks :
  KLog ∈ ks -> KFetch ∈ ks -> KInfer ∈ ks -> KUpdate ∈ ks -> KSelect ∈ ks ->
  respects (rel table_le ks) (handle_diagnosis_request E).
Proof.
  intros. unfold handle_diagnosis_request.
  respects_with ltac:(first [by apply handle_record_respects|respects_method]).
Qed.

End Orchestrators.

(** ** The command-line entry point *)

Section RunOnce.

Context {W : Type} (E : External W).

Lemma get_new_images_queries (s : sys W) :
  exists new_images s1 evs,
    get_new_images E s = (Ok new_images, s1)
    /\ table s1 = table s
    /\ trace s1 = trace s ++ EvDbSelectNull "images" "diagnosis" :: evs
    /\ kinds_in [KLog] evs.
Proof.
  unfold get_new_images, db_select_null, log, emit, ask, read_table, bind,
    try_except, ret, raise.
  destruct s as [w t tr]; simpl.
  destruct (db_transport E w) as [[|e|e] w1]; simpl;
    eexists _, _, _; (split; [reflexivity|]); (split; [reflexivity|]);
    simpl; rewrite <- ?app_assoc; (split; [reflexivity|]);
    repeat constructor.
Qed.

(** C10: when listing the bucket fails, [run_once] returns after the
    connection test: it has logged and listed, and has neither queried nor
    written the table.  [handle_diagnosis_request] starts with the query and
    never lists the bucket. *)
Theorem run_once_storage_gate (s : sys W) :
  (forall e w',
      storage_list E "images" (world s) = (Raise e, w') ->
      exists evs,
        run_once E s = (Ok tt, Sys w' (table s) (trace s ++ evs))
        /\ kinds_in [KLog; KList] evs)
  /\ (exists evs,
        trace (snd (handle_diagnosis_request E s))
          = trace s ++ EvDbSelectNull "images" "diagnosis" :: evs
        /\ kinds_in [KLog; KFetch; KInfer; KSelect; KUpdate] evs).
Proof.
  split.
  - intros e w' Hlist.
    unfold run_once, test_storage_connection, list_bucket, log, emit, call,
      bind, try_except, ret.
    destruct s as [w t tr]; simpl in *. rewrite Hlist; simpl.
    rewrite <- !app_assoc; simpl. eexists. split; [reflexivity|].
    repeat constructor.
  - destruct (get_new_images_queries s) as (imgs & s1 & evs1 & Hq & _ & Htr & Hk).
    unfold handle_diagnosis_request.
    set (k := fun new_images : list dict => match new_images with
                                            | [] => _ | _ :: _ => _ end).
    set (h := fun e : exn => _).
    assert (Hrest : respects
                      (rel table_le [KLog; KFetch; KInfer; KSelect; KUpdate])
                      (try_except (k imgs) h)).
    { subst k h. simpl.
      respects_with
        ltac:(first [ (apply handle_record_respects; kind_side)
                    | respects_method ]). }
    destruct (Hrest s1) as [_ (evs2 & Htr2 & Hk2)].
    assert (Heq : try_except (bind (get_new_images E) k) h s
                  = try_except (k imgs) h s1).
    { unfold try_except, bind. by rewrite Hq. }
    rewrite Heq, Htr2, Htr, <- app_assoc. simpl.
    eexists. split; [reflexivity|].
    apply Forall_app. split; [|done].
    eapply Forall_impl; [exact Hk|]. intros ev Hev.
    apply list_elem_of_singleton in Hev. rewrite Hev. kind_side.
Qed.

End RunOnce.

Lemma run_once_storage_gate_witness :
  let w := Demo.World [] false in
  let s := Demo.start [Demo.row "r1" "img/1.jpg"] w in
  List.filter is_pending (table s) <> []
  /\ (exists evs,
        run_once Demo.env s = (Ok tt, Sys w (table s) (trace s ++ evs))
        /\ kinds_in [KLog; KList] evs)
  /\ List.filter is_pending (table (snd (handle_diagnosis_request Demo.env s)))
     = [].
Proof.
  intros w s. split; [vm_compute; discriminate|]. split.
  - apply (proj1 (run_once_storage_gate Demo.env s)
             (Exn OtherException "bucket not found") w).
    reflexivity.
  - vm_compute. reflexivity.
Defined.

(** ** A failing query *)

Section QueryFailure.

Context {W : Type} (E : External W).

(** C7, amended: when the query for pending records fails,
    [get_new_images] logs the error and returns the empty list, and
    [handle_diagnosis_request] answers exactly as for an empty pending set:
    status success, nothing processed.  The table is untouched and the
    failure shows in the log only. *)
Theorem query_failure_reported_as_empty (s : sys W) (w' : W) (e : exn) :
  query_fails E (world s) w' e ->
  handle_diagnosis_request E s
  = (Ok no_new_images_response,
     Sys w' (table s)
       (trace s
        ++ [EvDbSelectNull "images" "diagnosis";
            EvLog ERROR "Error fetching new images: {str(e)}" [exn_str e]])).
Proof.
  intros Hq.
  unfold handle_diagnosis_request, get_new_images, db_select_null, log, emit,
    ask, read_table, bind, try_except, ret, raise.
  destruct s as [w t tr]; simpl in *.
  destruct Hq as [Hq|Hq]; rewrite Hq; simpl; by rewrite <- app_assoc.
Qed.

End QueryFailure.

Lemma query_failure_reported_as_empty_witness :
  let e := Exn OtherException "connection reset" in
  let s := Demo.start [Demo.row "r1" "img/1.jpg"]
             (Demo.World [DbFailBefore e] true) in
  handle_diagnosis_request Demo.env s
  = (Ok no_new_images_response,
     Sys (Demo.World [] true) (table s)
       (trace s
        ++ [EvDbSelectNull "images" "diagnosis";
            EvLog ERROR "Error fetching new images: {str(e)}" [exn_str e]])).
Proof.
  intros e s.
  apply (query_failure_reported_as_empty Demo.env s (Demo.World [] true) e).
  left. reflexivity.
Defined.

(** C7, as stated, fails: with a pending row in the table and a query that
    raises, [handle_diagnosis_request] returns the success summary of an
    empty pending set, the very response it gives on an empty table, and no
    error outcome. *)
Lemma query_failure_counterexample :
  let e := Exn OtherException "connection reset" in
  let failing := Demo.start [Demo.row "r1" "img/1.jpg"]
                   (Demo.World [DbFailBefore e] true) in
  let empty := Demo.start [] (Demo.World [] true) in
  fst (handle_diagnosis_request Demo.env failing)
  = fst (handle_diagnosis_request Demo.env empty)
  /\ fst (handle_diagnosis_request Demo.env failing)
     = Ok no_new_images_response
  /\ json_get no_new_images_response "status" JNull = Ok (JStr "success").
Proof. vm_compute. repeat split. Qed.

(** ** The HTTP surface *)

Section HttpSurface.

Context {W : Type} (E : External W).

(** C9 fails on [Handler.do_POST]: the Content-Length header is converted
    outside the [try] block, after the status line and the headers have been
    sent.  When the conversion raises (the header is missing or is not a
    number), the exception leaves the handler and no body is written. *)
Theorem do_POST_bad_content_length (self : Request) (s : sys W) (e : exn) :
  py_int (header_get (req_headers self) "Content-Length") = Raise e ->
  do_POST E self s
  = (Raise e,
     Sys (world s) (table s)
       (trace s
        ++ [EvSendResponse 200;
            EvSendHeader "Content-type" "application/json";
            EvEndHeaders])).
Proof.
  intros Hlen. unfold do_POST, emit, bind, eval.
  destruct s as [w t tr]; simpl. rewrite Hlen. by rewrite <- !app_assoc.
Qed.

End HttpSurface.

Lemma do_POST_bad_content_length_witness :
  let self := {| req_headers := [(py "Content-Type", py "application/json")];
                 req_rfile := [] |} in
  let s := Demo.start [Demo.row "r1" "img/1.jpg"] (Demo.World [] true) in
  let e :=
    Exn TypeError
      "int() argument must be a string, a bytes-like object or a real number, not 'NoneType'" in
  do_POST Demo.env self s
  = (Raise e,
     Sys (world s) (table s)
       (trace s
        ++ [EvSendResponse 200;
            EvSendHeader "Content-type" "application/json";
            EvEndHeaders])).
Proof.
  intros self s e.
  apply (do_POST_bad_content_length Demo.env self s e). reflexivity.
Defined.

(** ** The persistence updater *)

Section UpdaterResults.

Context {W : Type} (E : External W).

Lemma updates_of_app evs1 evs2 :
  updates_of (evs1 ++ evs2) = updates_of evs1 ++ updates_of evs2.
Proof. apply omap_app. Qed.

Lemma kinds_in_no_updates ks evs :
  kinds_in ks evs -> KUpdate ∉ ks -> updates_of evs = [].
Proof.
  intros Hk Hn. induction Hk as [|ev evs Hev _ IH]; [done|].
  unfold updates_of in *. destruct ev; simpl in *; done.
Qed.

Lemma update_diagnosis_in_db_never_raises image_id diagnosis (s : sys W) :
  exists ok s', update_diagnosis_in_db E image_id diagnosis s = (Ok ok, s').
Proof.
  apply try_except_never_raises. intros e s0. by eexists _, _.
Qed.

Lemma update_diagnosis_in_db_trace image_id diagnosis (s : sys W) :
  exists evs,
    trace (snd (update_diagnosis_in_db E image_id diagnosis s)) = trace s ++ evs
    /\ updates_of evs = [(image_id, diagnosis)].
Proof.
  unfold update_diagnosis_in_db, db_update, log, emit, ask, read_table,
    write_table, bind, try_except, ret, raise.
  destruct s as [w t tr]; simpl.
  destruct (utcnow_isoformat E w) as [ts w1]; simpl.
  destruct (db_transport E w1) as [[|e|e] w2]; simpl;
    [destruct (updated_rows image_id diagnosis ts t); simpl| |];
    rewrite <- ?app_assoc; by eexists.
Qed.

Lemma update_rows_settled image_id d ts rows row :
  row ∈ update_rows image_id d ts rows ->
  id_matches image_id row = true -> is_pending row = false.
Proof.
  unfold update_rows. intros (row0 & -> & _)%list_elem_of_fmap.
  destruct (id_matches image_id row0) eqn:Hm.
  - intros _. apply set_diagnosis_not_pending.
  - congruence.
Qed.

Lemma updated_rows_nonempty image_id d ts rows :
  updated_rows image_id d ts rows <> [] ->
  exists row, row ∈ rows /\ id_matches image_id row = true.
Proof.
  unfold updated_rows. intros Hne.
  destruct (List.filter (id_matches image_id) rows) as [|row l] eqn:Hf;
    [done|].
  exists row. rewrite list_elem_of_In.
  apply (filter_In (id_matches image_id) row rows). rewrite Hf. by left.
Qed.

(** The update returns true only when the statement ran, the reply arrived
    and at least one row carried the identifier; every such row is diagnosed
    afterwards. *)
Lemma update_diagnosis_in_db_true image_id diagnosis (s s' : sys W) :
  update_diagnosis_in_db E image_id diagnosis s = (Ok true, s') ->
  (exists row, row ∈ table s /\ id_matches image_id row = true)
  /\ (forall row, row ∈ table s' -> id_matches image_id row = true ->
                 is_pending row = false).
Proof.
  unfold update_diagnosis_in_db, db_update, log, emit, ask, read_table,
    write_table, bind, try_except, ret, raise.
  destruct s as [w t tr]; simpl.
  destruct (utcnow_isoformat E w) as [ts w1]; simpl.
  destruct (db_transport E w1) as [[|e|e] w2]; simpl;
    [|intros; simplify_eq..].
  destruct (updated_rows image_id diagnosis ts t) as [|r l] eqn:Hu; simpl;
    intros; simplify_eq.
  split.
  - apply (updated_rows_nonempty image_id diagnosis ts). by rewrite Hu.
  - simpl. intros row. apply update_rows_settled.
Qed.

End UpdaterResults.

(** ** One record of the batch *)

Section OneRecord.

Context {W : Type} (E : External W).

Lemma stages_exclusive image_record (s0 : sys W) image_id diagnosis s2 :
  stages_succeed E image_record s0 image_id diagnosis s2 ->
  a_stage_fails E image_record s0 -> False.
Proof.
  intros (p & img & s1 & j & Hid & Hp & Ht & Hf & Hd & Hne & Hj).
  intros [Hn|(p' & Hp' & [Ht'|[[s1' Hf']|(img' & s1' & d' & s2' & Hf' & Hd' & Hdt)]])];
    simplify_eq; try congruence.
  rewrite Hf in Hf'. simplify_eq. rewrite Hd in Hd'. simplify_eq.
  by destruct diagnosis.
Qed.

Lemma quiet_fetch storage_path (s : sys W) r s1 :
  get_image_from_storage E storage_path s = (r, s1) ->
  table s1 = table s
  /\ exists evs, trace s1 = trace s ++ evs /\ updates_of evs = [].
Proof.
  intros H.
  destruct (get_image_from_storage_respects E eq [KLog; KFetch] storage_path
              ltac:(kind_side) ltac:(kind_side) s) as [Ht (evs & Htr & Hk)].
  rewrite H in *. simpl in *. split; [done|]. exists evs. split; [done|].
  apply (kinds_in_no_updates _ _ Hk). kind_side.
Qed.

Lemma quiet_diagnose image user_prompt (s : sys W) r s1 :
  diagnose_plant E image user_prompt s = (r, s1) ->
  table s1 = table s
  /\ exists evs, trace s1 = trace s ++ evs /\ updates_of evs = [].
Proof.
  intros H.
  destruct (diagnose_plant_respects E eq [KLog; KInfer] image user_prompt
              ltac:(kind_side) ltac:(kind_side) s) as [Ht (evs & Htr & Hk)].
  rewrite H in *. simpl in *. split; [done|]. exists evs. split; [done|].
  apply (kinds_in_no_updates _ _ Hk). kind_side.
Qed.

(** A branch that appends an error entry and does not count the record. *)
Ltac not_counted s' evs trace_tac :=
  eexists s', _, false, evs; rewrite Z.add_0_r;
  split; [reflexivity|]; split; [trace_tac|];
  split; [right; eauto|]; split; [reflexivity|].

(** What one iteration of the loop of [handle_diagnosis_request] does: it
    appends one entry for the record and never raises; either no update was
    invoked, the table is unchanged and the record is not counted, or the
    stages before the update succeeded, the update was invoked once, and the
    record is counted exactly when the update returned true. *)
Lemma handle_record_cases image_record (s : sys W) (l : locals) :
  exists s' entry (counted : bool) evs,
    handle_record E image_record (s, l)
    = (Ok tt,
       (s', Locals (processed_count l + (if counted then 1 else 0))%Z
              (results l ++ [entry])))
    /\ trace s' = trace s ++ evs
    /\ entry_for image_record entry
    /\ succeeded entry = counted
    /\ ((counted = false /\ updates_of evs = [] /\ table s' = table s
         /\ forall id d s2, ~ stages_succeed E image_record s id d s2)
        \/ (exists id d s2,
              stages_succeed E image_record s id d s2
              /\ update_diagnosis_in_db E id d s2 = (Ok counted, s')
              /\ updates_of evs = [(id, d)])).
Proof.
  destruct l as [pc rs].
  unfold handle_record, handle_record_body, results_append,
    incr_processed_count, get_locals, set_locals, lift, bind, try_except,
    eval, ret, getitem, entry_for, get; simpl.
  destruct (image_record !! py "id") as [id|] eqn:Hid; simpl.
  2:{ not_counted s (@nil event) ltac:(by rewrite app_nil_r).
      left. repeat split; [done..|].
      intros ? ? ? (? & ? & ? & ? & ? & _). congruence. }
  destruct (image_record !! py "storage_path") as [p|] eqn:Hp; simpl.
  2:{ not_counted s (@nil event) ltac:(by rewrite app_nil_r).
      left. repeat split; [done..|].
      intros ? ? ? (? & ? & ? & ? & ? & ? & _). congruence. }
  destruct (truthy p) eqn:Htp; simpl.
  2:{ not_counted s (@nil event) ltac:(by rewrite app_nil_r).
      left. repeat split; [done..|].
      intros ? ? ? (? & ? & ? & ? & ? & ? & ? & _). congruence. }
  destruct (get_image_from_storage E p s) as [rf s1] eqn:Hf.
  destruct (quiet_fetch _ _ _ _ Hf) as (Ht1 & evs1 & Htr1 & Hu1).
  destruct rf as [[img|]|e]; simpl.
  2,3: not_counted s1 evs1 ltac:(done);
       left; (repeat split; [done..|]);
       intros ? ? ? (? & ? & ? & ? & ? & ? & ? & ? & _); congruence.
  destruct (diagnose_plant E img (default (PStr []) (image_record !! py "title")) s1)
    as [rd s2] eqn:Hd.
  destruct (quiet_diagnose _ _ _ _ _ Hd) as (Ht2 & evs2 & Htr2 & Hu2).
  assert (Htr12 : trace s2 = trace s ++ evs1 ++ evs2)
    by (by rewrite Htr2, Htr1, app_assoc).
  assert (Hfail :
    diagnosis_truthy (match rd with Ok o => o | Raise _ => None end) = false ->
    forall id d s2, ~ stages_succeed E image_record s id d s2).
  { intros Hdt ? ? ? (? & ? & ? & ? & ? & ? & ? & Hf' & Hd' & Hne & _).
    simplify_eq. rewrite Hf in Hf'. simplify_eq.
    unfold get in Hd'. rewrite Hd in Hd'. simplify_eq. simpl in Hdt.
    by destruct d. }
  destruct rd as [[d|]|e]; simpl.
  2,3: not_counted s2 (evs1 ++ evs2) ltac:(done);
       left; rewrite updates_of_app, Hu1, Hu2; repeat split;
         [congruence|by apply Hfail].
  destruct d as [|c d]; simpl.
  { not_counted s2 (evs1 ++ evs2) ltac:(done).
    left. rewrite updates_of_app, Hu1, Hu2. repeat split;
      [congruence|by apply Hfail]. }
  clear Hfail. set (c :: d) as diagnosis in *.
  destruct (diagnose_plant_Some E _ _ _ _ _ Hd) as [j Hj].
  assert (Hst : stages_succeed E image_record s id diagnosis s2).
  { exists p, img, s1, j. by repeat split. }
  destruct (update_diagnosis_in_db_never_raises E id diagnosis s2)
    as (ok & s3 & Hup).
  destruct (update_diagnosis_in_db_trace E id diagnosis s2)
    as (evs3 & Htr3 & Hu3).
  rewrite Hup in *. simpl in *.
  assert (Htr123 : trace s3 = trace s ++ evs1 ++ evs2 ++ evs3)
    by (by rewrite Htr3, Htr12, <- !app_assoc).
  assert (Hu123 : updates_of (evs1 ++ evs2 ++ evs3) = [(id, diagnosis)])
    by (by rewrite !updates_of_app, Hu1, Hu2, Hu3).
  destruct ok; simpl.
  - rewrite Hj. simpl.
    eexists s3, _, true, (evs1 ++ evs2 ++ evs3).
    split; [reflexivity|]. split; [done|]. split; [left; eauto|].
    split; [reflexivity|]. right. by exists id, diagnosis, s2.
  - not_counted s3 (evs1 ++ evs2 ++ evs3) ltac:(done).
    right. by exists id, diagnosis, s2.
Qed.

(** The same for one iteration of the loop of [process_new_images], which
    logs instead of collecting entries. *)
Lemma process_record_cases image_record (s : sys W) :
  exists s' evs,
    process_record E image_record s = (Ok tt, s')
    /\ trace s' = trace s ++ evs
    /\ ((updates_of evs = [] /\ table s' = table s
         /\ forall id d s2,
             ~ stages_succeed E image_record
                 (processing_logged image_record s) id d s2)
        \/ (exists id d s2 ok s3,
              stages_succeed E image_record
                (processing_logged image_record s) id d s2
              /\ update_diagnosis_in_db E id d s2 = (Ok ok, s3)
              /\ table s' = table s3
              /\ updates_of evs = [(id, d)])).
Proof.
  unfold process_record, process_record_body, processing_logged, sleep, log,
    emit, bind, try_except, eval, ret, getitem, get; simpl.
  destruct (image_record !! py "id") as [id|] eqn:Hid; simpl.
  2:{ eexists _, _. split; [reflexivity|]. split; [reflexivity|].
      left. repeat split; [done..|].
      intros ? ? ? (? & ? & ? & ? & ? & _). congruence. }
  destruct (image_record !! py "storage_path") as [p|] eqn:Hp; simpl.
  2:{ eexists _, _. split; [reflexivity|]. split; [reflexivity|].
      left. repeat split; [done..|].
      intros ? ? ? (? & ? & ? & ? & ? & ? & _). congruence. }
  destruct (truthy p) eqn:Htp; simpl.
  2:{ eexists _, _. split; [reflexivity|]. split; [reflexivity|].
      left. repeat split; [done..|].
      intros ? ? ? (? & ? & ? & ? & ? & ? & ? & _). congruence. }
  match goal with
  | |- context [get_image_from_storage E p ?s0] => set (s0' := s0)
  end.
  destruct (get_image_from_storage E p s0') as [rf s1] eqn:Hf.
  destruct (quiet_fetch _ _ _ _ Hf) as (Ht1 & evs1 & Htr1 & Hu1).
  simpl in Ht1, Htr1.
  destruct rf as [[img|]|e]; simpl.
  2,3: eexists _, _; (split; [reflexivity|]); simpl; rewrite Htr1;
       rewrite <- !app_assoc; (split; [reflexivity|]);
       left; rewrite !updates_of_app, Hu1; (repeat split; [done..|]);
       intros ? ? ? (? & ? & ? & ? & ? & ? & ? & ? & _); congruence.
  destruct (diagnose_plant E img (default (PStr []) (image_record !! py "title")) s1)
    as [rd s2] eqn:Hd.
  destruct (quiet_diagnose _ _ _ _ _ Hd) as (Ht2 & evs2 & Htr2 & Hu2).
  assert (Hfail :
    diagnosis_truthy (match rd with Ok o => o | Raise _ => None end) = false ->
    forall id d s2, ~ stages_succeed E image_record s0' id d s2).
  { intros Hdt ? ? ? (? & ? & ? & ? & ? & ? & ? & Hf' & Hd' & Hne & _).
    simplify_eq. rewrite Hf in Hf'. simplify_eq.
    unfold get in Hd'. rewrite Hd in Hd'. simplify_eq. simpl in Hdt.
    by destruct d. }
  destruct rd as [[d|]|e]; simpl.
  2,3: eexists _, _; (split; [reflexivity|]); simpl; rewrite Htr2, Htr1;
       rewrite <- !app_assoc; (split; [reflexivity|]);
       left; rewrite !updates_of_app, Hu1, Hu2; repeat split;
         [congruence|by apply Hfail].
  destruct d as [|c d]; simpl.
  { eexists _, _. split; [reflexivity|]. simpl. rewrite Htr2, Htr1.
    rewrite <- !app_assoc. split; [reflexivity|].
    left. rewrite !updates_of_app, Hu1, Hu2. repeat split;
      [congruence|by apply Hfail]. }
  clear Hfail. set (c :: d) as diagnosis in *.
  destruct (diagnose_plant_Some E _ _ _ _ _ Hd) as [j Hj].
  assert (Hst : stages_succeed E image_record s0' id diagnosis s2).
  { exists p, img, s1, j. by repeat split. }
  destruct (update_diagnosis_in_db_never_raises E id diagnosis s2)
    as (ok & s3 & Hup).
  destruct (update_diagnosis_in_db_trace E id diagnosis s2)
    as (evs3 & Htr3 & Hu3).
  rewrite Hup in *. simpl in *.
  destruct ok; simpl;
    (eexists _, _; split; [reflexivity|]; simpl; rewrite Htr3, Htr2, Htr1;
     rewrite <- !app_assoc; split; [reflexivity|];
     right; eexists id, diagnosis, s2, _, s3;
     rewrite !updates_of_app, Hu1, Hu2, Hu3; by repeat split).
Qed.

End OneRecord.

Section MutationGuard.

Context {W : Type} (E : External W).

(** C1: in both orchestrators, processing a record invokes the database
    update only after the fetch returned an image and the requester returned
    a text that decodes as JSON; when the storage path is absent or empty,
    the fetch fails, or the diagnosis is missing or does not decode, no
    update is invoked and the table, hence the record's diagnosis field, is
    unchanged. *)
Theorem record_mutated_only_after_fetch_and_diagnosis
    (image_record : dict) (s : sys W) (l : locals) :
  mutation_guarded E image_record s s
    (fst (snd (handle_record E image_record (s, l))))
  /\ mutation_guarded E image_record (processing_logged image_record s) s
       (snd (process_record E image_record s)).
Proof.
  split.
  - destruct (handle_record_cases E image_record s l)
      as (s' & entry & counted & evs & Heq & Htr & _ & _ & Hcase).
    rewrite Heq. simpl. exists evs. split; [done|].
    destruct Hcase as [(_ & Hu & Ht & Hno)|(id & d & s2 & Hst & Hup & Hu)].
    + split; [congruence|done].
    + split; [by eauto|]. intros Hfail.
      destruct (stages_exclusive E _ _ _ _ _ Hst Hfail).
  - destruct (process_record_cases E image_record s)
      as (s' & evs & Heq & Htr & Hcase).
    rewrite Heq. simpl. exists evs. split; [done|].
    destruct Hcase
      as [(Hu & Ht & Hno)|(id & d & s2 & ok & s3 & Hst & Hup & Ht & Hu)].
    + split; [congruence|done].
    + split; [by eauto|]. intros Hfail.
      destruct (stages_exclusive E _ _ _ _ _ Hst Hfail).
Qed.

End MutationGuard.

(** On the reference environment: the record whose image cannot be fetched
    stays as it is, in both orchestrators. *)
Lemma record_mutated_only_after_fetch_and_diagnosis_witness :
  let r4 := Demo.row "r4" "img/4.jpg" in
  let s := Demo.start [r4] (Demo.World [] true) in
  table (fst (snd (handle_record Demo.env r4 (s, Locals 0 [])))) = table s
  /\ table (snd (process_record Demo.env r4 s)) = table s.
Proof.
  intros r4 s.
  destruct (record_mutated_only_after_fetch_and_diagnosis Demo.env r4 s
              (Locals 0 []))
    as [(evs1 & _ & _ & H1) (evs2 & _ & _ & H2)].
  split.
  - apply H1. right. exists (PStr "img/4.jpg"). split; [reflexivity|].
    right. left. eexists. reflexivity.
  - apply H2. right. exists (PStr "img/4.jpg"). split; [reflexivity|].
    right. left. eexists. reflexivity.
Defined.

(** ** The batch of the HTTP orchestrator *)

Section Batch.

Context {W : Type} (E : External W).

Lemma settled_mono image_record t t' :
  table_le t t' -> settled image_record t -> settled image_record t'.
Proof.
  intros Hle (id & Hid & Hall). exists id. split; [done|].
  intros row' [i Hi]%list_elem_of_lookup Hm.
  destruct (Forall2_lookup_r _ _ _ _ _ Hle Hi) as (row & Hrow & Hid' & Hp).
  apply Hp, Hall; [by eapply list_elem_of_lookup_2|].
  unfold id_matches in *. by rewrite <- Hid'.
Qed.

(** The loop of [handle_diagnosis_request]: it never raises, appends one
    entry per record, counts the entries that report a success, only moves
    the table forward, and has every row of a record it counted
    diagnosed. *)
Lemma handle_records_loop (records : list dict) (s : sys W) (l : locals) :
  exists s' entries,
    for_each records (handle_record E) (s, l)
    = (Ok tt,
       (s', Locals (processed_count l
                    + Z.of_nat (length (List.filter succeeded entries)))%Z
              (results l ++ entries)))
    /\ table_le (table s) (table s')
    /\ Forall2 (fun r entry =>
                  entry_for r entry
                  /\ (succeeded entry = true -> settled r (table s')))
         records entries.
Proof.
  revert s l. induction records as [|r records IH]; intros s l.
  - exists s, []. simpl. rewrite Z.add_0_r, app_nil_r. destruct l.
    repeat split; [reflexivity|constructor].
  - destruct (handle_record_cases E r s l)
      as (s1 & entry & counted & evs & Heq & Htr & Hentry & Hsucc & Hcase).
    assert (Hle1 : table_le (table s) (table s1)).
    { destruct (handle_record_respects E [KLog; KFetch; KInfer; KUpdate] r
                  ltac:(kind_side) ltac:(kind_side) ltac:(kind_side)
                  ltac:(kind_side) (s, l)) as [Hle _].
      by rewrite Heq in Hle. }
    destruct (IH s1 (Locals (processed_count l + (if counted then 1 else 0))%Z
                       (results l ++ [entry])))
      as (s' & entries & Heq' & Hle' & Hall).
    exists s', (entry :: entries). split; [|split].
    + simpl. unfold bind. rewrite Heq, Heq'. simpl. rewrite Hsucc.
      rewrite <- app_assoc. simpl.
      destruct counted; simpl; [|by rewrite Z.add_0_r].
      do 3 f_equal. lia.
    + by etrans.
    + constructor; [|done]. split; [done|]. intros Hs.
      apply (settled_mono _ _ _ Hle').
      destruct Hcase as [(Hc & _)|(id & d & s2 & Hst & Hup & _)];
        [congruence|].
      destruct counted; [|congruence].
      destruct Hst as (p & img & s1' & j & Hid & _).
      exists id. split; [done|].
      by apply (update_diagnosis_in_db_true E _ _ _ _ Hup).
Qed.

(** C2: [handle_diagnosis_request] never raises.  When the query returns
    records, its summary holds exactly one entry per record, in order, each a
    success or an error that carries the record's identifier (or the text
    unknown); the processed count is the number of entries that report a
    success, hence at most the number of records. *)
Theorem one_outcome_per_record (s : sys W) :
  exists new_images s0 response s',
    get_new_images E s = (Ok new_images, s0)
    /\ handle_diagnosis_request E s = (Ok response, s')
    /\ match new_images with
       | [] => response = no_new_images_response
       | _ :: _ =>
           exists entries,
             response
             = summary_response
                 (Z.of_nat (length (List.filter succeeded entries)))
                 (length new_images) entries
             /\ Forall2 entry_for new_images entries
             /\ length entries = length new_images
             /\ (length (List.filter succeeded entries)
                 <= length new_images)%nat
       end.
Proof.
  destruct (get_new_images_queries E s) as (imgs & s0 & evs & Hq & _).
  unfold handle_diagnosis_request, try_except, bind. rewrite Hq.
  destruct imgs as [|r imgs].
  - by eexists [], _, _, _.
  - destruct (handle_records_loop (r :: imgs) s0 (Locals 0 []))
      as (s' & entries & Heq & _ & Hall).
    unfold with_locals. rewrite Heq. simpl.
    eexists _, _, _, _. split; [reflexivity|]. split; [reflexivity|].
    assert (Hlen : length entries = length (r :: imgs))
      by (symmetry; by eapply Forall2_length).
    exists entries. split; [reflexivity|]. split; [|split; [done|]].
    + eapply Forall2_impl; [exact Hall|]. by intros ? ? [? _].
    + rewrite <- Hlen. apply filter_length_le.
Qed.

End Batch.

(** ** Update results and idempotence *)

Section Idempotence.

Context {W : Type} (E : External W).

Lemma get_new_images_result (s : sys W) :
  exists new_images s0,
    get_new_images E s = (Ok new_images, s0)
    /\ table s0 = table s
    /\ (new_images = [] \/ new_images = List.filter is_pending (table s)).
Proof.
  unfold get_new_images, db_select_null, log, emit, ask, read_table, bind,
    try_except, ret, raise.
  destruct s as [w t tr]; simpl.
  destruct (db_transport E w) as [[|e|e] w1]; simpl;
    [destruct (List.filter is_pending t) eqn:Hf|..];
    eexists _, _; (split; [reflexivity|]); (split; [reflexivity|]); auto.
Qed.

Lemma filter_all_length {A} (f : A -> bool) (l : list A) :
  length (List.filter f l) = length l -> Forall (fun x => f x = true) l.
Proof.
  induction l as [|x l IH]; simpl; [constructor|].
  destruct (f x) eqn:Hx; simpl.
  - intros [= H]. by constructor; [|apply IH].
  - intros H. pose proof (filter_length_le f l). lia.
Qed.

Lemma filter_none {A} (f : A -> bool) (l : list A) :
  (forall x, x ∈ l -> f x = false) -> List.filter f l = [].
Proof.
  induction l as [|x l IH]; simpl; [done|]. intros H.
  rewrite (H x) by constructor. apply IH. intros y Hy. apply H. by constructor.
Qed.

(** After a run that counted every pending row, no row is pending. *)
Lemma full_run_leaves_nothing_pending (s : sys W) response s1 :
  handle_diagnosis_request E s = (Ok response, s1) ->
  json_get response "processed" JNull
  = Ok (JInt (Z.of_nat (length (List.filter is_pending (table s))))) ->
  List.filter is_pending (table s1) = [].
Proof.
  intros Hrun Hfull.
  destruct (get_new_images_result s) as (imgs & s0 & Hq & Ht0 & Himgs).
  unfold handle_diagnosis_request, try_except, bind in Hrun. rewrite Hq in Hrun.
  destruct imgs as [|r imgs].
  - simpl in Hrun. simplify_eq. rewrite Ht0.
    injection Hfull as Hfull.
    by destruct (List.filter is_pending (table s)).
  - destruct Himgs as [?|Himgs]; [done|].
    destruct (handle_records_loop E (r :: imgs) s0 (Locals 0 []))
      as (s' & entries & Heq & Hle & Hall).
    unfold with_locals in Hrun. rewrite Heq in Hrun. simpl in Hrun.
    simplify_eq.
    assert (Hcount :
      Ok (JInt (Z.of_nat (length (List.filter succeeded entries))))
      = Ok (JInt (Z.of_nat (length (List.filter is_pending (table s))))))
      by exact Hfull.
    clear Hfull. injection Hcount as Hfull.
    apply Nat2Z.inj in Hfull. rewrite <- Himgs in Hfull.
    assert (Hlen : length (r :: imgs) = length entries)
      by (by eapply Forall2_length).
    rewrite Hlen in Hfull. apply filter_all_length in Hfull.
    assert (Hsettled : forall row, row ∈ r :: imgs -> settled row (table s1)).
    { intros row [i Hi]%list_elem_of_lookup.
      destruct (Forall2_lookup_l _ _ _ _ _ Hall Hi) as (entry & He & _ & Hs).
      apply Hs. rewrite Forall_forall in Hfull. apply Hfull.
      by eapply list_elem_of_lookup_2. }
    apply filter_none. intros row' [i Hi]%list_elem_of_lookup.
    rewrite Ht0 in Hle.
    destruct (Forall2_lookup_r _ _ _ _ _ Hle Hi) as (row & Hrow & Hid & Hp).
    destruct (is_pending row) eqn:Hpend; [|by apply Hp].
    assert (Hin : row ∈ r :: imgs).
    { rewrite Himgs. apply list_elem_of_In, filter_In. split; [|done].
      by apply list_elem_of_In, list_elem_of_lookup_2 with i. }
    destruct (Hsettled row Hin) as (id & Hrid & Hrows).
    apply Hrows; [by eapply list_elem_of_lookup_2|].
    unfold id_matches. apply bool_decide_eq_true. congruence.
Qed.

(** C8: [update_diagnosis_in_db] returns false when the round trip fails
    and when no row carries the identifier, alike; it returns true only when
    the update reported rows, all of them diagnosed afterwards.  Hence a run
    of [handle_diagnosis_request] that counted every pending row leaves no
    row pending, and the run that follows processes nothing. *)
Theorem update_result_and_idempotence
    (s : sys W) (image_id : pyval) (diagnosis : pystr) :
  (forall ts w1 w2,
      utcnow_isoformat E (world s) = (ts, w1) ->
      (db_transport E w1 = (DbOk, w2)
       /\ forall row, row ∈ table s -> id_matches image_id row = false)
      \/ (exists e, query_fails E w1 w2 e) ->
      fst (update_diagnosis_in_db E image_id diagnosis s) = Ok false)
  /\ (forall s',
        update_diagnosis_in_db E image_id diagnosis s = (Ok true, s') ->
        (exists row, row ∈ table s /\ id_matches image_id row = true)
        /\ (forall row, row ∈ table s' -> id_matches image_id row = true ->
                        is_pending row = false))
  /\ (forall response s1,
        handle_diagnosis_request E s = (Ok response, s1) ->
        json_get response "processed" JNull
        = Ok (JInt (Z.of_nat (length (List.filter is_pending (table s))))) ->
        List.filter is_pending (table s1) = []
        /\ exists s2,
            handle_diagnosis_request E s1 = (Ok no_new_images_response, s2)
            /\ table s2 = table s1).
Proof.
  split; [|split].
  - intros ts w1 w2 Hnow Hcase.
    unfold update_diagnosis_in_db, db_update, log, emit, ask, read_table,
      write_table, bind, try_except, ret, raise.
    destruct s as [w t tr]; simpl in *. rewrite Hnow; simpl.
    destruct Hcase as [[Hdb Hnone]|[e [Hdb|Hdb]]]; rewrite Hdb; simpl;
      [|done..].
    unfold updated_rows. by rewrite (filter_none _ _ Hnone).
  - intros s'. apply update_diagnosis_in_db_true.
  - intros response s1 Hrun Hfull.
    pose proof (full_run_leaves_nothing_pending s response s1 Hrun Hfull)
      as Hnone.
    split; [done|].
    destruct (get_new_images_result s1) as (imgs & s2 & Hq & Ht & Himgs).
    assert (imgs = []) as -> by (destruct Himgs; congruence).
    exists s2. split; [|done].
    unfold handle_diagnosis_request, try_except, bind. by rewrite Hq.
Qed.

End Idempotence.

Lemma update_result_and_idempotence_witness :
  let s := Demo.start [Demo.row "r1" "img/1.jpg"; Demo.row "r2" "img/2.jpg"]
             (Demo.World [] true) in
  let down := Demo.start [Demo.row "r1" "img/1.jpg"]
                (Demo.World [DbFailAfter (Exn OtherException "timeout")] true)
  in
  let s1 := snd (handle_diagnosis_request Demo.env s) in
  fst (update_diagnosis_in_db Demo.env (PStr "r9") "{}" s) = Ok false
  /\ fst (update_diagnosis_in_db Demo.env (PStr "r1") "{}" down) = Ok false
  /\ ((exists row, row ∈ table s /\ id_matches (PStr "r1") row = true)
      /\ forall row,
          row ∈ table (snd (update_diagnosis_in_db Demo.env (PStr "r1") "{}" s))
          -> id_matches (PStr "r1") row = true -> is_pending row = false)
  /\ (List.filter is_pending (table s1) = []
      /\ exists s2,
          handle_diagnosis_request Demo.env s1
          = (Ok no_new_images_response, s2)
          /\ table s2 = table s1).
Proof.
  intros s down s1. split; [|split; [|split]].
  - apply (proj1 (update_result_and_idempotence Demo.env s (PStr "r9") "{}")
             (py "2024-01-01T00:00:00") (Demo.World [] true)
             (Demo.World [] true)); [reflexivity|].
    left. split; [reflexivity|].
    intros row Hrow. apply list_elem_of_In in Hrow. simpl in Hrow.
    destruct Hrow as [<-|[<-|[]]]; reflexivity.
  - apply (proj1 (update_result_and_idempotence Demo.env down (PStr "r1") "{}")
             (py "2024-01-01T00:00:00")
             (Demo.World [DbFailAfter (Exn OtherException "timeout")] true)
             (Demo.World [] true)); [reflexivity|].
    right. eexists. right. reflexivity.
  - apply (proj1 (proj2 (update_result_and_idempotence Demo.env s
                           (PStr "r1") "{}"))).
    reflexivity.
  - apply (proj2 (proj2 (update_result_and_idempotence Demo.env s
                           (PStr "r1") "{}"))
             (summary_response 2 2
                [success_entry (PStr "r1") (JObj []);
                 success_entry (PStr "r2") (JObj [])])
             s1).
    + reflexivity.
    + reflexivity.
Defined.


(** ** The WSGI application *)

Section Wsgi.

Context {W : Type} (E : External W).

(** The sibling entry point converts the content length inside its [try]
    block: on every WSGI environ, [app] returns one body, the encoding of a
    response object. *)
Lemma app_always_responds (environ : Environ) (s : sys W) (method : pystr) :
  environ_vars environ !! py "REQUEST_METHOD" = Some method ->
  exists response s',
    fst (app E environ s) = Ok
      {| wsgi_status := py "200 OK";
         wsgi_headers :=
           [(py "Content-type", py "application/json");
            (py "Content-Length",
             str_of_Z (Z.of_nat (length (json_dumps_encode E response))))];
         wsgi_body := [json_dumps_encode E response] |}
    /\ snd (app E environ s) = s'.
Proof.
  intros Hm. unfold app, bind, eval, ret. rewrite Hm.
  destruct (bool_decide (method = py "POST")).
  - match goal with
    | |- context [try_except ?m ?h s] =>
        destruct (try_except_never_raises m h
                    ltac:(intros e0 s0; by eexists _, _) s)
          as (response & s' & ->)
    end.
    by exists response, s'.
  - unfold running_response, ask, bind, ret.
    destruct (utcnow_isoformat E (world s)) as [ts w]. by eexists _, _.
Qed.

End Wsgi.

(** ** End-to-end scenarios on the reference environment *)

Example scenario_one_record_diagnosed :
  fst (handle_diagnosis_request Demo.env
         (Demo.start [Demo.row "r1" "img/1.jpg"] (Demo.World [] true)))
  = Ok (summary_response 1 1 [success_entry (PStr "r1") (JObj [])]).
Proof. vm_compute. reflexivity. Qed.

Example scenario_missing_storage_path :
  fst (handle_diagnosis_request Demo.env
         (Demo.start [<[py "storage_path" := PStr []]> (Demo.row "r1" "x")]
            (Demo.World [] true)))
  = Ok (summary_response 0 1
          [error_entry (PStr "r1") "Missing storage path"]).
Proof. vm_compute. reflexivity. Qed.

Example scenario_record_without_id :
  fst (handle_diagnosis_request Demo.env
         (Demo.start [<[py "diagnosis" := PNone]> ∅] (Demo.World [] true)))
  = Ok (summary_response 0 1 [error_entry (PStr "unknown") "'id'"]).
Proof. vm_compute. reflexivity. Qed.

Example scenario_post_unknown_action :
  let body :=
    Demo.encode (py "{" ++ Demo.quoted "action" ++ py ": "
                 ++ Demo.quoted "bogus" ++ py "}") in
  let self :=
    {| req_headers := [(py "content-length", py "19")]; req_rfile := body |} in
  do_POST Demo.env self (Demo.start [] (Demo.World [] true))
  = (Ok tt,
     Sys (Demo.World [] true) []
       [EvSendResponse 200;
        EvSendHeader "Content-type" "application/json";
        EvEndHeaders;
        EvWfileWrite
          (Demo.dumps_encode
             (JObj [(py "status", JStr "error");
                    (py "message", JStr "Invalid action")]))]).
Proof. vm_compute. reflexivity. Qed.

Example scenario_post_content_length_not_a_number :
  let self :=
    {| req_headers := [(py "Content-Length", py "abc")]; req_rfile := [] |} in
  fst (do_POST Demo.env self (Demo.start [] (Demo.World [] true)))
  = Raise (Exn ValueError "invalid literal for int() with base 10: 'abc'").
Proof. vm_compute. reflexivity. Qed.

(** ** More on the image fetcher *)

Section FetcherOutcomes.

Context {W : Type} (E : External W).

Ltac unfold_fetch :=
  unfold get_image_from_storage, direct_download, signed_url_download,
    download, create_signed_url, http_get, log, emit, call, bind, try_except,
    ret, raise, eval.

(** X1: when the direct download gives an image, that image is returned and
    the fallback is not attempted: the only request made is the download. *)
Theorem direct_download_short_circuits
    (storage_path : pyval) (s : sys W) (w1 : W) (image : Image) :
  direct_download_gives E storage_path (world s) w1 image ->
  exists evs,
    get_image_from_storage E storage_path s
    = (Ok (Some image), Sys w1 (table s) (trace s ++ evs))
    /\ fetch_events evs = [EvDownload "images" storage_path].
Proof.
  intros (data & Hd & Hne & Himg). unfold_fetch.
  destruct s as [w t tr]; simpl in *. rewrite Hd; simpl.
  destruct data as [|b data]; [done|]. simpl. rewrite Himg; simpl.
  rewrite <- !app_assoc. simpl. by eexists.
Qed.

Lemma fetch_events_app evs1 evs2 :
  fetch_events (evs1 ++ evs2) = fetch_events evs1 ++ fetch_events evs2.
Proof. apply List.filter_app. Qed.

Lemma direct_download_None storage_path (s : sys W) w1 :
  direct_method_fails E storage_path (world s) w1 ->
  exists evs,
    direct_download E storage_path s
    = (Ok None, Sys w1 (table s) (trace s ++ evs))
    /\ fetch_events evs = [EvDownload "images" storage_path].
Proof.
  unfold direct_download, download, log, emit, call, bind, try_except, ret,
    eval.
  destruct s as [w t tr]; simpl.
  intros [[[e Hd]|(b & Hd & Hb)]|(data & e & Hd & Hne & Himg)];
    rewrite Hd; simpl.
  - rewrite <- !app_assoc. by eexists.
  - rewrite Hb. simpl. rewrite <- !app_assoc. by eexists.
  - destruct data as [|b data]; [done|]. simpl. rewrite Himg. simpl.
    rewrite <- !app_assoc. by eexists.
Qed.

Lemma signed_url_download_no_url storage_path (s : sys W) w2 :
  no_signed_url E storage_path (world s) w2 ->
  exists evs,
    signed_url_download E storage_path s
    = (Ok None, Sys w2 (table s) (trace s ++ evs))
    /\ fetch_events evs = [EvCreateSignedUrl "images" storage_path 3600].
Proof.
  unfold signed_url_download, create_signed_url, http_get, log, emit, call,
    bind, try_except, ret, eval.
  destruct s as [w t tr]; simpl.
  intros [[e Hs]|(reply & Hs & [Hf|[e Hsl]])]; rewrite Hs; simpl.
  - destruct (is_HTTPError e); simpl; rewrite <- !app_assoc; by eexists.
  - rewrite Hf. simpl. rewrite <- !app_assoc. by eexists.
  - destruct (dict_truthy reply && truthy (reply_get reply "signedURL"));
      simpl.
    + rewrite Hsl. simpl.
      destruct (is_HTTPError e); simpl; rewrite <- !app_assoc; by eexists.
    + rewrite <- !app_assoc. by eexists.
Qed.

Lemma signed_reply_usable (reply : dict) url :
  reply !! py "signedURL" = Some (PStr url) -> url <> [] ->
  dict_truthy (Some reply) && truthy (reply_get (Some reply) "signedURL")
  = true
  /\ reply_get (Some reply) "signedURL" = PStr url.
Proof.
  intros Hurl Hne. unfold dict_truthy, reply_get, get. rewrite Hurl. simpl.
  split; [|done]. destruct url; [done|]. rewrite andb_true_r.
  apply negb_true_iff, bool_decide_eq_false. intros ->.
  by rewrite lookup_empty in Hurl.
Qed.

Lemma signed_url_download_get_fails storage_path (s : sys W) w3 :
  signed_get_fails E storage_path (world s) w3 ->
  exists evs,
    signed_url_download E storage_path s
    = (Ok None, Sys w3 (table s) (trace s ++ evs)).
Proof.
  unfold signed_url_download, create_signed_url, http_get, log, emit, call,
    bind, try_except, ret, eval.
  destruct s as [w t tr]; cbn [world table trace].
  intros (w2 & reply & url & Hs & Hurl & Hne & Hget).
  destruct (signed_reply_usable reply url Hurl Hne) as [Ht Hg].
  rewrite Hs; cbn [world table trace]. rewrite Ht, Hg.
  cbn [world table trace slice_70 py_str].
  destruct Hget as [[e Hget]|(resp & Hget & [[e Hst]|[e Himg]])];
    rewrite Hget; cbn [world table trace].
  - destruct (is_HTTPError e); simpl; rewrite <- !app_assoc; by eexists.
  - rewrite Hst. simpl.
    destruct (is_HTTPError e); simpl; rewrite <- !app_assoc; by eexists.
  - destruct (raise_for_status resp) as [[]|e'].
    + simpl. rewrite Himg. simpl.
      destruct (is_HTTPError e); simpl; rewrite <- !app_assoc; by eexists.
    + destruct (is_HTTPError e'); simpl; rewrite <- !app_assoc; by eexists.
Qed.

(** X2: when both methods fail, [get_image_from_storage] returns [None].
    If no URL comes out of the signing, no HTTP request is made: the only
    requests are the download and the signing. *)
Theorem both_methods_fail (storage_path : pyval) (s : sys W) (w1 : W) :
  direct_method_fails E storage_path (world s) w1 ->
  (forall w2,
      no_signed_url E storage_path w1 w2 ->
      exists evs,
        get_image_from_storage E storage_path s
        = (Ok None, Sys w2 (table s) (trace s ++ evs))
        /\ fetch_events evs
           = [EvDownload "images" storage_path;
              EvCreateSignedUrl "images" storage_path 3600])
  /\ (forall w3,
        signed_get_fails E storage_path w1 w3 ->
        exists evs,
          get_image_from_storage E storage_path s
          = (Ok None, Sys w3 (table s) (trace s ++ evs))).
Proof.
  intros Hd.
  set (s0 := snd (log INFO "Attempting to download image from path: {storage_path}"
                    [py_str storage_path] s)).
  destruct (direct_download_None storage_path s0 w1 Hd) as (evs1 & H1 & F1).
  split.
  - intros w2 Hs.
    destruct (signed_url_download_no_url storage_path
                (Sys w1 (table s0) (trace s0 ++ evs1)) w2 Hs)
      as (evs2 & H2 & F2).
    unfold get_image_from_storage, bind, try_except, ret.
    change (log INFO _ _ s) with (Ok tt, s0). cbv beta iota.
    rewrite H1. cbv beta iota. rewrite H2. cbv beta iota.
    subst s0. unfold log, emit. simpl. rewrite <- !app_assoc.
    eexists. split; [reflexivity|].
    simpl. rewrite !fetch_events_app, F1, F2. reflexivity.
  - intros w3 Hs.
    destruct (signed_url_download_get_fails storage_path
                (Sys w1 (table s0) (trace s0 ++ evs1)) w3 Hs)
      as (evs2 & H2).
    unfold get_image_from_storage, bind, try_except, ret.
    change (log INFO _ _ s) with (Ok tt, s0). cbv beta iota.
    rewrite H1. cbv beta iota. rewrite H2. cbv beta iota.
    subst s0. unfold log, emit. simpl. rewrite <- !app_assoc. by eexists.
Qed.

Lemma direct_download_cases storage_path (s : sys W) :
  exists r w1 evs,
    direct_download E storage_path s
    = (Ok r, Sys w1 (table s) (trace s ++ evs))
    /\ match r with
       | Some image => direct_download_gives E storage_path (world s) w1 image
       | None => direct_method_fails E storage_path (world s) w1
       end.
Proof.
  unfold direct_download, download, log, emit, call, bind, try_except, ret,
    eval, direct_download_gives, direct_method_fails, direct_download_fails.
  destruct s as [w t tr]; simpl.
  destruct (storage_download E "images" storage_path w) as [[b|e] w1] eqn:Hd;
    simpl.
  - destruct b as [[|b0 data]|]; simpl.
    + rewrite <- !app_assoc. eexists None, _, _. split; [reflexivity|].
      left. right. by eexists.
    + destruct (Image_open E (b0 :: data)) as [image|e] eqn:Himg; simpl;
        rewrite <- !app_assoc.
      * eexists (Some image), _, _. split; [reflexivity|]. by eexists.
      * eexists None, _, _. split; [reflexivity|]. right. by eexists _, _.
    + rewrite <- !app_assoc. eexists None, _, _. split; [reflexivity|].
      left. right. by eexists.
  - rewrite <- !app_assoc. eexists None, _, _. split; [reflexivity|].
    left. left. by eexists.
Qed.

Lemma signed_reply_usable_inv (reply : option dict) shown :
  dict_truthy reply && truthy (reply_get reply "signedURL") = true ->
  slice_70 (reply_get reply "signedURL") = Ok shown ->
  exists d url,
    reply = Some d /\ d !! py "signedURL" = Some (PStr url) /\ url <> []
    /\ reply_get reply "signedURL" = PStr url.
Proof.
  intros [Hd Ht]%andb_true_iff Hsl.
  destruct reply as [d|]; [|done]. unfold reply_get, get in *.
  destruct (d !! py "signedURL") as [[| | |url]|] eqn:Hurl; try done.
  exists d, url. repeat split; try done. by intros ->.
Qed.

Lemma signed_url_download_Some storage_path (s s' : sys W) image :
  signed_url_download E storage_path s = (Ok (Some image), s') ->
  signed_url_gives E storage_path (world s) (world s') image
  /\ table s' = table s.
Proof.
  unfold signed_url_download, create_signed_url, http_get, log, emit, call,
    bind, try_except, ret, eval, signed_url_gives.
  destruct s as [w t tr]; cbn [world table trace].
  destruct (storage_create_signed_url E "images" storage_path 3600 w)
    as [[reply|e] w2] eqn:Hs; cbn [world table trace].
  2:{ destruct (is_HTTPError e); simpl; intros; simplify_eq. }
  destruct (dict_truthy reply && truthy (reply_get reply "signedURL"))
    eqn:Hc; cbn [world table trace].
  2:{ simpl; intros; simplify_eq. }
  destruct (slice_70 (reply_get reply "signedURL")) as [shown|e] eqn:Hsl;
    cbn [world table trace].
  2:{ destruct (is_HTTPError e); simpl; intros; simplify_eq. }
  destruct (signed_reply_usable_inv reply shown Hc Hsl)
    as (d & url & -> & Hurl & Hne & Hg).
  rewrite Hg. cbn [py_str world table trace].
  destruct (requests_get E url 30 w2) as [[resp|e] w3] eqn:Hget;
    cbn [world table trace].
  2:{ destruct (is_HTTPError e); simpl; intros; simplify_eq. }
  destruct (raise_for_status resp) as [[]|e] eqn:Hst; cbn [world table trace].
  2:{ destruct (is_HTTPError e); simpl; intros; simplify_eq. }
  destruct (Image_open E (content resp)) as [img|e] eqn:Himg;
    cbn [world table trace].
  2:{ destruct (is_HTTPError e); simpl; intros; simplify_eq. }
  simpl. intros; simplify_eq. simpl. split; [|done].
  by exists w2, d, url, resp.
Qed.

(** X3: an image is returned only through one of the two methods.  Either
    the direct download gave it, or method 1 failed and the signed URL
    (signed for 3600, fetched with timeout 30) gave it; in both cases the
    image is one that [Image.open] produced, and the table is untouched. *)
Theorem image_only_from_a_method
    (storage_path : pyval) (s s' : sys W) (image : Image) :
  get_image_from_storage E storage_path s = (Ok (Some image), s') ->
  (direct_download_gives E storage_path (world s) (world s') image
   \/ exists w1,
       direct_method_fails E storage_path (world s) w1
       /\ signed_url_gives E storage_path w1 (world s') image)
  /\ table s' = table s.
Proof.
  set (s0 := snd (log INFO "Attempting to download image from path: {storage_path}"
                    [py_str storage_path] s)).
  destruct (direct_download_cases storage_path s0) as (r & w1 & evs1 & H1 & Hr).
  unfold get_image_from_storage, bind, try_except, ret.
  change (log INFO _ _ s) with (Ok tt, s0). cbv beta iota.
  rewrite H1. cbv beta iota.
  destruct r as [img|].
  - intros; simplify_eq. by split; [left|].
  - destruct (signed_url_download E storage_path
                (Sys w1 (table s0) (trace s0 ++ evs1)))
      as [[[img|]|e] s2] eqn:H2; cbv beta iota.
    + intros; simplify_eq.
      destruct (signed_url_download_Some _ _ _ _ H2) as [Hg Ht].
      split; [right; by exists w1|done].
    + unfold log, emit. simpl. intros; simplify_eq.
    + unfold log, emit. simpl. intros; simplify_eq.
Qed.

End FetcherOutcomes.

Lemma direct_download_short_circuits_witness :
  let w := Demo.World [] true in
  exists evs,
    get_image_from_storage Demo.env (PStr "img/1.jpg") (Demo.start [] w)
    = (Ok (Some (PILImage Demo.jpeg_a)), Sys w [] ([] ++ evs))
    /\ fetch_events evs = [EvDownload "images" (PStr "img/1.jpg")].
Proof.
  intros w.
  apply (direct_download_short_circuits Demo.env (PStr "img/1.jpg")
           (Demo.start [] w) w (PILImage Demo.jpeg_a)).
  exists Demo.jpeg_a. by repeat split.
Defined.

Lemma both_methods_fail_witness :
  let w := Demo.World [] true in
  (exists evs,
      get_image_from_storage Demo.env (PStr "img/4.jpg") (Demo.start [] w)
      = (Ok None, Sys w [] ([] ++ evs))
      /\ fetch_events evs
         = [EvDownload "images" (PStr "img/4.jpg");
            EvCreateSignedUrl "images" (PStr "img/4.jpg") 3600])
  /\ (exists evs,
        get_image_from_storage Scenarios.broken_cdn (PStr "img/2.jpg")
          (Demo.start [] w)
        = (Ok None, Sys w [] ([] ++ evs))).
Proof.
  intros w. split.
  - apply (proj1 (both_methods_fail Demo.env (PStr "img/4.jpg")
                    (Demo.start [] w) w
                    ltac:(left; right; by exists None))).
    right. eexists. split; [reflexivity|]. by left.
  - apply (proj2 (both_methods_fail Scenarios.broken_cdn (PStr "img/2.jpg")
                    (Demo.start [] w) w
                    ltac:(left; left; by eexists))).
    eexists w, _, (py "https://signed/img/2.jpg").
    split; [reflexivity|]. split; [reflexivity|]. split; [done|].
    right. eexists. split; [reflexivity|]. left. by eexists.
Defined.

Lemma image_only_from_a_method_witness :
  let w := Demo.World [] true in
  let s := Demo.start [] w in
  let s' := snd (get_image_from_storage Demo.env (PStr "img/2.jpg") s) in
  (direct_download_gives Demo.env (PStr "img/2.jpg") (world s) (world s')
     (PILImage Demo.jpeg_a)
   \/ exists w1,
       direct_method_fails Demo.env (PStr "img/2.jpg") (world s) w1
       /\ signed_url_gives Demo.env (PStr "img/2.jpg") w1 (world s')
            (PILImage Demo.jpeg_a))
  /\ table s' = table s.
Proof.
  intros w s s'.
  apply (image_only_from_a_method Demo.env (PStr "img/2.jpg") s s'
           (PILImage Demo.jpeg_a)).
  reflexivity.
Defined.

(** ** The connection test, the query and the update *)

Section SmallMethods.

Context {W : Type} (E : External W).

Lemma for_each_log (files : list pystr) (s : sys W) :
  for_each files (fun file => log (W:=W) INFO "File: {file}" [file]) s
  = (Ok tt, Sys (world s) (table s) (trace s ++ file_lines files)).
Proof.
  revert s. induction files as [|file files IH]; intros [w t tr]; simpl.
  - by rewrite app_nil_r.
  - unfold bind, log, emit. simpl. rewrite IH. simpl.
    by rewrite <- app_assoc.
Qed.

(** X4: [test_storage_connection] never raises and answers whether the
    bucket could be listed.  It lists once, logs the number of entries and
    at most the first five of them, and leaves the table alone;
    [handle_test_connection] turns the answer into its response. *)
Theorem connection_test_reports_listing (s : sys W) :
  match storage_list E "images" (world s) with
  | (Ok files, w') =>
      test_storage_connection E s
      = (Ok true,
         Sys w' (table s)
           (trace s
            ++ [EvLog INFO "Testing storage bucket connection..." [];
                EvStorageList "images";
                EvLog INFO "Found {len(files)} items in root of images bucket"
                  [str_of_Z (Z.of_nat (length files))]]
            ++ file_lines (take 5 files)))
      /\ fst (handle_test_connection E s) = Ok (connection_response true)
  | (Raise e, w') =>
      test_storage_connection E s
      = (Ok false,
         Sys w' (table s)
           (trace s
            ++ [EvLog INFO "Testing storage bucket connection..." [];
                EvStorageList "images";
                EvLog ERROR "Storage connection test failed: {str(e)}"
                  [exn_str e]]))
      /\ fst (handle_test_connection E s) = Ok (connection_response false)
  end.
Proof.
  unfold handle_test_connection, bind.
  unfold test_storage_connection, list_bucket, log, emit, call, bind,
    try_except, ret.
  destruct s as [w t tr]; simpl.
  destruct (storage_list E "images" w) as [[files|e] w'] eqn:Hl; simpl.
  - fold (log (W:=W)). rewrite for_each_log. simpl.
    by rewrite <- !app_assoc.
  - by rewrite <- !app_assoc.
Qed.

(** X5: [get_new_images] never raises and never changes the table.  Every
    record it returns is a pending row of the table; when the round trip
    succeeds it returns all the pending rows, in table order, and when it
    fails it returns none. *)
Theorem pending_query_result (s : sys W) :
  exists new_images s',
    get_new_images E s = (Ok new_images, s')
    /\ table s' = table s
    /\ (forall r, r ∈ new_images -> r ∈ table s /\ is_pending r = true)
    /\ new_images
       = match fst (db_transport E (world s)) with
         | DbOk => List.filter is_pending (table s)
         | _ => []
         end.
Proof.
  unfold get_new_images, db_select_null, log, emit, ask, read_table, bind,
    try_except, ret, raise.
  destruct s as [w t tr]; simpl.
  destruct (db_transport E w) as [[|e|e] w1]; simpl.
  - eexists (List.filter is_pending t), _.
    split; [by destruct (List.filter is_pending t)|].
    split; [done|]. split; [|done].
    intros r Hr. apply list_elem_of_In, filter_In in Hr.
    by rewrite list_elem_of_In.
  - eexists [], _. split; [done|]. split; [done|]. split; [|done].
    intros r Hr. by apply elem_of_nil in Hr.
  - eexists [], _. split; [done|]. split; [done|]. split; [|done].
    intros r Hr. by apply elem_of_nil in Hr.
Qed.

Lemma set_diagnosis_touched d ts row : touched d row (set_diagnosis d ts row).
Proof.
  unfold touched, set_diagnosis. split.
  - by rewrite lookup_insert_ne, lookup_insert_eq by done.
  - intros k H1 H2. by rewrite !lookup_insert_ne by done.
Qed.

(** X6: [update_diagnosis_in_db] never raises, keeps every row in its
    place, and leaves alone the rows whose identifier differs; a row it
    changes carries the identifier, holds the new diagnosis, and differs
    from what it was in the [diagnosis] and [updated_at] columns only. *)
Theorem update_touches_only_matching_rows
    (image_id : pyval) (diagnosis : pystr) (s : sys W) :
  exists ok s',
    update_diagnosis_in_db E image_id diagnosis s = (Ok ok, s')
    /\ Forall2 (fun row row' =>
                  row' = row
                  \/ (id_matches image_id row = true
                      /\ touched diagnosis row row'))
         (table s) (table s').
Proof.
  unfold update_diagnosis_in_db, db_update, log, emit, ask, read_table,
    write_table, bind, try_except, ret, raise.
  destruct s as [w t tr]; simpl.
  destruct (utcnow_isoformat E w) as [ts w1]; simpl.
  assert (Hupd : Forall2 (fun row row' =>
                            row' = row
                            \/ (id_matches image_id row = true
                                /\ touched diagnosis row row'))
                   t (update_rows image_id diagnosis ts t)).
  { unfold update_rows. induction t as [|row t IH]; simpl; constructor;
      [|done].
    destruct (id_matches image_id row) eqn:Hm; [right|by left].
    split; [done|apply set_diagnosis_touched]. }
  assert (Hsame : Forall2 (fun row row' =>
                             row' = row
                             \/ (id_matches image_id row = true
                                 /\ touched diagnosis row row')) t t).
  { induction t; constructor; auto. apply IHt.
    by apply Forall2_cons_1 in Hupd as [_ ?]. }
  destruct (db_transport E w1) as [[|e|e] w2]; simpl;
    [destruct (updated_rows image_id diagnosis ts t); simpl| |];
    by eexists _, _.
Qed.

End SmallMethods.

(** ** More on the diagnosis requester *)

Section RequesterOutcomes.

Context {W : Type} (E : External W).

Lemma part_of_refl s : part_of s s.
Proof. exists [], []. by rewrite app_nil_r. Qed.

Lemma part_of_trans x y z : part_of x y -> part_of y z -> part_of x z.
Proof.
  intros (a & b & ->) (c & d & ->). exists (c ++ a), (b ++ d).
  by rewrite <- !app_assoc.
Qed.

Lemma part_of_drop n s : part_of (drop n s) s.
Proof. exists (take n s), []. by rewrite app_nil_r, take_drop. Qed.

Lemma part_of_take n s : part_of (take n s) s.
Proof. exists [], (drop n s). simpl. by rewrite take_drop. Qed.

Lemma part_of_strip s : part_of (strip s) s.
Proof.
  destruct (lstrip_split s) as (ws1 & H1 & _).
  destruct (rstrip_split (lstrip s)) as (ws2 & H2 & _).
  exists ws1, ws2. unfold strip. by rewrite <- H2.
Qed.

(** X8: the cleaned text is a contiguous part of the reply, taken as it
    stands, and carries no whitespace at either end: cleaning removes text
    around the content and never rewrites the content. *)
Theorem cleaned_text_is_part_of_reply (response_text : pystr) :
  part_of (clean_json_text response_text) response_text
  /\ strip (clean_json_text response_text) = clean_json_text response_text.
Proof.
  unfold clean_json_text. split; [|apply strip_idemp].
  eapply part_of_trans; [apply part_of_strip|].
  eapply part_of_trans; [|apply part_of_strip].
  set (raw := strip response_text).
  assert (H1 : forall c, part_of c raw ->
                         part_of (if endswith c "```"
                                  then slice_to_minus (length (py "```")) c
                                  else c) raw).
  { intros c Hc. destruct (endswith c (py "```")); [|done].
    eapply part_of_trans; [apply part_of_take|done]. }
  apply H1.
  destruct (startswith raw (py "```json"));
    [apply part_of_drop|].
  destruct (startswith raw (py "```")); [apply part_of_drop|].
  apply part_of_refl.
Qed.

(** X7: [diagnose_plant] never raises, leaves the table alone and makes
    exactly one inference request, with the instruction text followed by the
    caption; when that request raises, or the text of the reply cannot be
    read, it returns [None]. *)
Theorem diagnose_plant_single_request
    (image : Image) (user_prompt : pyval) (s : sys W) :
  exists diagnosis s' evs,
    diagnose_plant E image user_prompt s = (Ok diagnosis, s')
    /\ table s' = table s
    /\ trace s' = trace s ++ evs
    /\ infer_events evs
       = [EvGenerateContent
            (diagnosis_prompt E ++ [10; 10] ++ py "User's description: "
             ++ py_str user_prompt) image]
    /\ match generate_content E (full_prompt E user_prompt) image (world s)
       with
       | (Ok resp, _) =>
           match text resp with
           | Ok reply_text =>
               forall d, diagnosis = Some d -> d = clean_json_text reply_text
           | Raise _ => diagnosis = None
           end
       | (Raise _, _) => diagnosis = None
       end.
Proof.
  unfold diagnose_plant, model_generate_content, log, emit, call, bind,
    try_except, ret, raise, eval.
  destruct s as [w t tr]; simpl.
  destruct (generate_content E _ image w) as [[resp|e] w1]; simpl.
  2:{ eexists _, _, _. rewrite <- !app_assoc.
      split; [reflexivity|]. by repeat split. }
  destruct (text resp) as [txt|e]; simpl.
  2:{ eexists _, _, _. rewrite <- !app_assoc.
      split; [reflexivity|]. by repeat split. }
  destruct (json_loads E (clean_json_text txt)) as [j|e]; simpl.
  - eexists _, _, _. split; [reflexivity|]. simpl.
    split; [done|]. split; [reflexivity|]. split; [reflexivity|].
    by intros d [= <-].
  - destruct (is_JSONDecodeError e); simpl; eexists _, _, _;
      rewrite <- ?app_assoc; (split; [reflexivity|]); simpl;
      (split; [done|]); (split; [reflexivity|]); (split; [reflexivity|]);
      by intros.
Qed.

End RequesterOutcomes.

(** ** The trace is write-only *)

Section TraceBlind.

Context {W : Type}.

Implicit Types s : sys W.

Lemma same_db_refl s : same_db s s.
Proof. by split. Qed.

Lemma same_db_sym s s' : same_db s s' -> same_db s' s.
Proof. intros [? ?]. by split. Qed.

Lemma same_db_trans s1 s2 s3 : same_db s1 s2 -> same_db s2 s3 -> same_db s1 s3.
Proof. intros [? ?] [? ?]. split; congruence. Qed.

Lemma trace_blind_ret {A} (a : A) : trace_blind (W:=W) (ret a).
Proof. by intros s s' H. Qed.

Lemma trace_blind_raise {A} (e : exn) : trace_blind (W:=W) (raise (A:=A) e).
Proof. by intros s s' H. Qed.

Lemma trace_blind_eval {A} (r : res A) : trace_blind (W:=W) (eval r).
Proof. by intros s s' H. Qed.

Lemma trace_blind_bind {A B} (m : M (sys W) A) (k : A -> M (sys W) B) :
  trace_blind m -> (forall a, trace_blind (k a)) -> trace_blind (bind m k).
Proof.
  intros Hm Hk s s' H. unfold bind. destruct (Hm s s' H) as [Hr Hs].
  destruct (m s) as [r1 s1], (m s') as [r2 s2]. simpl in *. subst r2.
  destruct r1 as [a|e]; [by apply Hk|done].
Qed.

Lemma trace_blind_try_except {A} (m : M (sys W) A) (h : exn -> M (sys W) A) :
  trace_blind m -> (forall e, trace_blind (h e)) ->
  trace_blind (try_except m h).
Proof.
  intros Hm Hh s s' H. unfold try_except. destruct (Hm s s' H) as [Hr Hs].
  destruct (m s) as [r1 s1], (m s') as [r2 s2]. simpl in *. subst r2.
  destruct r1 as [a|e]; [done|by apply Hh].
Qed.

Lemma trace_blind_for_each {A} (l : list A) (f : A -> M (sys W) unit) :
  (forall x, trace_blind (f x)) -> trace_blind (for_each l f).
Proof.
  intros Hf. induction l as [|x l IH]; simpl.
  - apply trace_blind_ret.
  - apply trace_blind_bind; [apply Hf|by intros _].
Qed.

Lemma trace_blind_emit ev : trace_blind (W:=W) (emit ev).
Proof. by intros s s' H. Qed.

Lemma trace_blind_log lvl template args :
  trace_blind (W:=W) (log lvl template args).
Proof. apply trace_blind_emit. Qed.

Lemma trace_blind_call {A} (f : W -> res A * W) : trace_blind (call f).
Proof.
  intros s s' [Hw Ht]. unfold call. rewrite Hw.
  destruct (f (world s')) as [r w]. simpl. by split.
Qed.

Lemma trace_blind_ask {A} (f : W -> A * W) : trace_blind (ask f).
Proof.
  intros s s' [Hw Ht]. unfold ask. rewrite Hw.
  destruct (f (world s')) as [r w]. simpl. by split.
Qed.

Lemma trace_blind_read_table : trace_blind (W:=W) read_table.
Proof. intros s s' [Hw Ht]. unfold read_table. simpl. by rewrite Ht. Qed.

Lemma trace_blind_write_table rows : trace_blind (W:=W) (write_table rows).
Proof. intros s s' [Hw Ht]. unfold write_table. simpl. by split. Qed.

(** Emitting an event moves the state within its class. *)
Lemma same_db_emit ev s : same_db (snd (emit ev s)) s.
Proof. by split. Qed.

End TraceBlind.

Ltac trace_blind_with tac :=
  repeat first
    [ tac
    | apply trace_blind_ret | apply trace_blind_raise | apply trace_blind_eval
    | apply trace_blind_call | apply trace_blind_ask
    | apply trace_blind_read_table | apply trace_blind_write_table
    | apply trace_blind_log | apply trace_blind_emit
    | (apply trace_blind_bind; [ | intros ? ])
    | (apply trace_blind_try_except; [ | intros ? ])
    | (apply trace_blind_for_each; intros ?)
    | match goal with
      | |- trace_blind (if ?b then _ else _) => destruct b
      | |- trace_blind (match ?x with _ => _ end) => destruct x
      end ].

Section TraceBlindMethods.

Context {W : Type} (E : External W).

Lemma get_image_from_storage_trace_blind storage_path :
  trace_blind (get_image_from_storage E storage_path).
Proof.
  unfold get_image_from_storage, direct_download, signed_url_download,
    download, create_signed_url, http_get.
  trace_blind_with fail.
Qed.

Lemma diagnose_plant_trace_blind image user_prompt :
  trace_blind (diagnose_plant E image user_prompt).
Proof.
  unfold diagnose_plant, model_generate_content. trace_blind_with fail.
Qed.

Lemma update_diagnosis_in_db_trace_blind image_id diagnosis :
  trace_blind (update_diagnosis_in_db E image_id diagnosis).
Proof.
  unfold update_diagnosis_in_db, db_update. trace_blind_with fail.
Qed.

Lemma get_new_images_trace_blind : trace_blind (get_new_images E).
Proof. unfold get_new_images, db_select_null. trace_blind_with fail. Qed.

Lemma test_storage_connection_trace_blind :
  trace_blind (test_storage_connection E).
Proof.
  unfold test_storage_connection, list_bucket. trace_blind_with fail.
Qed.

Ltac blind_method :=
  first [ apply get_image_from_storage_trace_blind
        | apply diagnose_plant_trace_blind
        | apply update_diagnosis_in_db_trace_blind
        | apply get_new_images_trace_blind
        | apply test_storage_connection_trace_blind ].

Lemma process_record_trace_blind image_record :
  trace_blind (process_record E image_record).
Proof.
  unfold process_record, process_record_body, sleep.
  trace_blind_with blind_method.
Qed.

Lemma process_new_images_trace_blind : trace_blind (process_new_images E).
Proof.
  unfold process_new_images.
  trace_blind_with
    ltac:(first [apply process_record_trace_blind | blind_method]).
Qed.

End TraceBlindMethods.

(** ** The two orchestrators do the same work *)

Section Agreement.

Context {W : Type} (E : External W).



Lemma process_records_loop (records : list dict) (s : sys W) :
  exists s', for_each records (process_record E) s = (Ok tt, s').
Proof.
  revert s. induction records as [|r records IH]; intros s; simpl.
  - by eexists.
  - destruct (process_record_cases E r s) as (s1 & evs & Heq & _).
    destruct (IH s1) as (s' & Heq'). exists s'.
    unfold bind. by rewrite Heq.
Qed.



End Agreement.

(** ** The delay between records *)

Section Delay.

Context {W : Type} (E : External W).

Lemma sleeps_of_app evs1 evs2 :
  sleeps_of (evs1 ++ evs2) = sleeps_of evs1 ++ sleeps_of evs2.
Proof. apply omap_app. Qed.

Lemma kinds_in_no_sleeps ks evs :
  kinds_in ks evs -> KSleep ∉ ks -> sleeps_of evs = [].
Proof.
  intros Hk Hn. induction Hk as [|ev evs Hev _ IH]; [done|].
  unfold sleeps_of in *. destruct ev; simpl in *; done.
Qed.

(** The events of a call that respects [rel T ks]. *)
Lemma respected_events {A} T ks (m : M (sys W) A) (s : sys W) r s1 :
  respects (rel T ks) m -> m s = (r, s1) ->
  exists evs, trace s1 = trace s ++ evs /\ kinds_in ks evs.
Proof. intros Hm Heq. destruct (Hm s) as [_ H]. by rewrite Heq in H. Qed.

Lemma no_sleep_no_update ks evs :
  kinds_in ks evs -> KSleep ∉ ks -> KUpdate ∉ ks ->
  sleeps_of evs = [] /\ updates_of evs = [].
Proof.
  intros Hk H1 H2. split;
    [by eapply kinds_in_no_sleeps|by eapply kinds_in_no_updates].
Qed.

(** One record of [process_new_images]: it sleeps, for 2, exactly when it
    has invoked the update. *)
Lemma process_record_sleeps image_record (s : sys W) :
  exists evs,
    trace (snd (process_record E image_record s)) = trace s ++ evs
    /\ sleeps_of evs = map (fun _ => 2%Z) (updates_of evs).
Proof.
  unfold process_record, process_record_body, sleep, log, emit, bind,
    try_except, eval, ret, getitem, get; simpl.
  destruct (image_record !! py "id") as [id|]; simpl; [|by eexists].
  destruct (image_record !! py "storage_path") as [p|]; simpl; [|by eexists].
  destruct (truthy p); simpl; [|by eexists].
  match goal with
  | |- context [get_image_from_storage E p ?s0] => set (s0' := s0)
  end.
  destruct (get_image_from_storage E p s0') as [rf s1] eqn:Hf.
  destruct (respected_events eq [KLog; KFetch] _ _ _ _
              (get_image_from_storage_respects E eq [KLog; KFetch] p
                 ltac:(kind_side) ltac:(kind_side)) Hf)
    as (evs1 & Htr1 & Hk1).
  destruct (no_sleep_no_update _ _ Hk1 ltac:(kind_side) ltac:(kind_side))
    as [Hs1 Hu1].
  simpl in Htr1.
  destruct rf as [[img|]|e]; simpl.
  2,3: rewrite Htr1, <- !app_assoc; eexists; (split; [reflexivity|]);
       simpl; by rewrite !sleeps_of_app, !updates_of_app, Hs1, Hu1.
  destruct (diagnose_plant E img (default (PStr []) (image_record !! py "title")) s1)
    as [rd s2] eqn:Hd.
  destruct (respected_events eq [KLog; KInfer] _ _ _ _
              (diagnose_plant_respects E eq [KLog; KInfer] _ _
                 ltac:(kind_side) ltac:(kind_side)) Hd)
    as (evs2 & Htr2 & Hk2).
  destruct (no_sleep_no_update _ _ Hk2 ltac:(kind_side) ltac:(kind_side))
    as [Hs2 Hu2].
  destruct rd as [[[|c d]|]|e]; simpl.
  1,3,4: rewrite Htr2, Htr1, <- !app_assoc; eexists;
         (split; [reflexivity|]); simpl;
         by rewrite !sleeps_of_app, !updates_of_app, Hs1, Hu1, Hs2, Hu2.
  destruct (update_diagnosis_in_db_never_raises E id (c :: d) s2)
    as (ok & s3 & Hup).
  rewrite Hup.
  destruct (respected_events table_le [KLog; KUpdate] _ _ _ _
              (update_diagnosis_in_db_respects E [KLog; KUpdate] id (c :: d)
                 ltac:(kind_side) ltac:(kind_side)) Hup)
    as (evs3 & Htr3 & Hk3).
  pose proof (kinds_in_no_sleeps _ _ Hk3 ltac:(kind_side)) as Hs3.
  destruct (update_diagnosis_in_db_trace E id (c :: d) s2)
    as (evs3' & Htr3' & Hu3).
  rewrite Hup in Htr3'. simpl in Htr3'. rewrite Htr3 in Htr3'.
  apply app_inv_head in Htr3'. subst evs3'.
  destruct ok; simpl;
    rewrite Htr3, Htr2, Htr1, <- !app_assoc; eexists;
    (split; [reflexivity|]); simpl;
    rewrite !sleeps_of_app, !updates_of_app, Hs1, Hu1, Hs2, Hu2, Hs3, Hu3;
    reflexivity.
Qed.

Lemma process_records_sleeps (records : list dict) (s : sys W) :
  exists evs,
    trace (snd (for_each records (process_record E) s)) = trace s ++ evs
    /\ sleeps_of evs = map (fun _ => 2%Z) (updates_of evs).
Proof.
  revert s. induction records as [|r records IH]; intros s; simpl.
  - exists []. by rewrite app_nil_r.
  - destruct (process_record_sleeps r s) as (evs1 & Htr1 & Hs1).
    destruct (process_record_cases E r s) as (s1 & evs & Heq & _).
    rewrite Heq in Htr1. simpl in Htr1.
    destruct (IH s1) as (evs2 & Htr2 & Hs2).
    unfold bind. rewrite Heq. exists (evs1 ++ evs2).
    split; [by rewrite Htr2, Htr1, app_assoc|].
    by rewrite sleeps_of_app, updates_of_app, map_app, Hs1, Hs2.
Qed.

(** X9: [process_new_images] sleeps for 2 once for every update it invokes
    and at no other time, so a record that is skipped costs no delay;
    [handle_diagnosis_request] never sleeps. *)
Theorem delay_follows_each_update (s : sys W) :
  (exists evs,
      trace (snd (process_new_images E s)) = trace s ++ evs
      /\ sleeps_of evs = map (fun _ => 2%Z) (updates_of evs))
  /\ (exists evs,
        trace (snd (handle_diagnosis_request E s)) = trace s ++ evs
        /\ sleeps_of evs = []).
Proof.
  split.
  - destruct (get_new_images_queries E s)
      as (imgs & s0 & evs0 & Hq & _ & Htr0 & Hk0).
    pose proof (kinds_in_no_sleeps _ _ Hk0 ltac:(kind_side)) as Hs0.
    pose proof (kinds_in_no_updates _ _ Hk0 ltac:(kind_side)) as Hu0.
    unfold process_new_images, bind. rewrite Hq.
    destruct imgs as [|r imgs].
    + unfold log, emit. simpl. rewrite Htr0, <- app_assoc. eexists.
      split; [reflexivity|]. simpl.
      by rewrite sleeps_of_app, updates_of_app, Hs0, Hu0.
    + set (s1 := snd (log INFO "Found {len(new_images)} new images to process"
                        [str_of_Z (Z.of_nat (length (r :: imgs)))] s0)).
      change (log INFO _ _ s0) with (Ok tt, s1). cbv beta iota.
      destruct (process_records_sleeps (r :: imgs) s1) as (evs1 & Htr1 & Hs1).
      rewrite Htr1. subst s1. simpl. rewrite Htr0, <- !app_assoc.
      eexists. split; [reflexivity|]. simpl.
      by rewrite !sleeps_of_app, !updates_of_app, Hs0, Hu0.
  - destruct (handle_diagnosis_request_respects E
                [KLog; KFetch; KInfer; KUpdate; KSelect]
                ltac:(kind_side) ltac:(kind_side) ltac:(kind_side)
                ltac:(kind_side) ltac:(kind_side) s)
      as [_ (evs & Htr & Hk)].
    exists evs. split; [done|].
    apply (kinds_in_no_sleeps _ _ Hk). kind_side.
Qed.

End Delay.

(** ** The HTTP surface, continued *)

Section BlindLocals.

Context {W L : Type}.










End BlindLocals.


Section BlindApi.

Context {W : Type} (E : External W).




End BlindApi.

Section HttpAnswers.

Context {W : Type} (E : External W).


(** X11: [handle_diagnosis_request] always returns, and always with status
    success: no failure of the query, of a fetch, of the inference or of an
    update reaches its last [except] clause.  Failures show in the entries
    and in the count only. *)
Theorem handle_diagnosis_request_always_succeeds (s : sys W) :
  exists response s',
    handle_diagnosis_request E s = (Ok response, s')
    /\ json_get response "status" JNull = Ok (JStr "success")
    /\ exists processed,
        json_get response "processed" JNull = Ok (JInt processed)
        /\ (0 <= processed)%Z.
Proof.
  destruct (get_new_images_queries E s) as (imgs & s0 & evs0 & Hq & _).
  unfold handle_diagnosis_request, try_except, bind. rewrite Hq.
  destruct imgs as [|r imgs].
  - eexists _, _. split; [reflexivity|]. split; [reflexivity|].
    by exists 0%Z.
  - destruct (handle_records_loop E (r :: imgs) s0 (Locals 0 []))
      as (s' & entries & Heq & _).
    unfold with_locals. rewrite Heq. simpl.
    eexists _, _. split; [reflexivity|]. split; [reflexivity|].
    eexists. split; [reflexivity|]. lia.
Qed.



Lemma kinds_in_weaken ks ks' evs :
  ks ⊆ ks' -> kinds_in ks evs -> kinds_in ks' evs.
Proof.
  intros Hs Hk. eapply Forall_impl; [exact Hk|]. intros ev. apply Hs.
Qed.



End HttpAnswers.

Section EntryPoints.

Context {W : Type} (E : External W).









End EntryPoints.




(** ** Requests the entry points do not route *)

Section Unrouted.

Context {W : Type} (E : External W).

(** X15: a request that is not a POST never reaches the database, the
    storage or the model: [handler], [app] and [do_GET] only read the
    clock, and answer with the running message and that time. *)
Theorem health_check_touches_nothing
    (self : Request) (environ : Environ) (request : ServerlessRequest)
    (method : pystr) (s : sys W) :
  environ_vars environ !! py "REQUEST_METHOD" = Some method ->
  method <> py "POST" ->
  request_method request <> py "POST" ->
  let response := running (fst (utcnow_isoformat E (world s))) in
  let s' := Sys (snd (utcnow_isoformat E (world s))) (table s) (trace s) in
  handler E request s = (Ok response, s')
  /\ (exists result,
        app E environ s = (Ok result, s')
        /\ wsgi_body result = [json_dumps_encode E response])
  /\ do_GET E self s
     = (Ok tt,
        Sys (world s') (table s)
          (trace s ++ response_head
           ++ [EvWfileWrite (json_dumps_encode E response)])).
Proof.
  intros Hm Hne Hrm response s'. subst response s'.
  split; [|split].
  - unfold handler. rewrite bool_decide_eq_false_2 by done.
    unfold running_response, ask, bind, ret.
    by destruct (utcnow_isoformat E (world s)).
  - unfold app, bind, eval, ret. rewrite Hm.
    rewrite bool_decide_eq_false_2 by done.
    unfold running_response, ask, bind, ret.
    destruct (utcnow_isoformat E (world s)). by eexists.
  - unfold do_GET, running_response, ask, bind, ret, emit, response_head.
    simpl. destruct (utcnow_isoformat E (world s)). simpl.
    by rewrite <- ?app_assoc.
Qed.






End Unrouted.

Lemma health_check_touches_nothing_witness :
  let self := {| req_headers := []; req_rfile := [] |} in
  let environ :=
    {| environ_vars := <[py "REQUEST_METHOD" := py "GET"]> ∅;
       wsgi_input := [] |} in
  let request :=
    {| request_method := py "GET";
       request_json := Raise (Exn ValueError "no body") |} in
  let s := Demo.start [Demo.row "r1" "img/1.jpg"] (Demo.World [] true) in
  let response := running (py "2024-01-01T00:00:00") in
  handler Demo.env request s = (Ok response, s)
  /\ (exists result,
        app Demo.env environ s = (Ok result, s)
        /\ wsgi_body result = [json_dumps_encode Demo.env response])
  /\ do_GET Demo.env self s
     = (Ok tt,
        Sys (world s) (table s)
          (trace s ++ response_head
           ++ [EvWfileWrite (json_dumps_encode Demo.env response)])).
Proof.
  intros self environ request s response.
  apply (health_check_touches_nothing Demo.env self environ request
           (py "GET") s); [reflexivity | discriminate | discriminate].
Defined.



(** ** The command-line driver *)

Section Advances.

Context {W : Type}.






Lemma count_kind_app k evs1 evs2 :
  count_kind k (evs1 ++ evs2)
  = (count_kind k evs1 + count_kind k evs2)%nat.
Proof. unfold count_kind. by rewrite List.filter_app, length_app. Qed.

Lemma kinds_in_count_zero ks k evs :
  kinds_in ks evs -> k ∉ ks -> count_kind k evs = 0%nat.
Proof.
  intros Hk Hn. induction Hk as [|ev evs Hev _ IH]; [done|].
  unfold count_kind in *. simpl.
  rewrite bool_decide_eq_false_2; [done|]. intros <-. done.
Qed.

End Advances.

Ltac in_list := apply (bool_decide_unpack _); vm_compute; exact I.

Section Passes.

Context {W : Type} (E : External W).

(** One call of [process_new_images]: it returns, having queried the
    pending set once. *)
Lemma process_new_images_pass (s : sys W) :
  exists s1 evs,
    process_new_images E s = (Ok tt, s1)
    /\ advances [KLog; KSleep; KFetch; KInfer; KUpdate; KSelect] [2%Z]
         s s1 evs
    /\ count_kind KSelect evs = 1%nat.
Proof.
  destruct (get_new_images_queries E s)
    as (imgs & s0 & evs0 & Hq & _ & Htr0 & Hk0).
  destruct (process_new_images_respects E
              [KLog; KSleep; KFetch; KInfer; KUpdate; KSelect]
              ltac:(in_list) ltac:(in_list) ltac:(in_list) ltac:(in_list)
              ltac:(in_list) ltac:(in_list) s) as [Hle _].
  assert (Hrest : exists s1 evs1,
             process_new_images E s = (Ok tt, s1)
             /\ trace s1 = trace s0 ++ evs1
             /\ kinds_in [KLog; KSleep; KFetch; KInfer; KUpdate] evs1
             /\ Forall (fun n => n ∈ [2%Z]) (sleeps_of evs1)).
  { unfold process_new_images, bind. rewrite Hq.
    destruct imgs as [|r imgs].
    - eexists _, [_]. unfold log, emit. simpl.
      split; [reflexivity|]. split; [reflexivity|].
      split; [|constructor]. constructor; [in_list|constructor].
    - set (s1 := snd (log INFO "Found {len(new_images)} new images to process"
                        [str_of_Z (Z.of_nat (length (r :: imgs)))] s0)).
      change (log INFO _ _ s0) with (Ok tt, s1). cbv beta iota.
      destruct (process_records_loop E (r :: imgs) s1) as [s2 Hloop].
      destruct (process_records_sleeps E (r :: imgs) s1)
        as (evs1 & Htr1 & Hs1).
      assert (Hr : respects
                     (rel table_le [KLog; KSleep; KFetch; KInfer; KUpdate])
                     (for_each (r :: imgs) (process_record E))).
      { apply respects_for_each; [apply _|]. intros x.
        apply process_record_respects; in_list. }
      destruct (Hr s1) as [_ (evs1' & Htr1' & Hk1)].
      rewrite Htr1 in Htr1'. apply app_inv_head in Htr1'. subst evs1'.
      rewrite Hloop in *. simpl in Htr1.
      eexists s2, (_ :: evs1). split; [reflexivity|].
      split; [rewrite Htr1; unfold s1, log, emit; simpl;
              by rewrite <- app_assoc|].
      split; [constructor; [in_list|done]|].
      simpl. rewrite Hs1. clear.
      induction (updates_of evs1); constructor; [in_list|done]. }
  destruct Hrest as (s1 & evs1 & Hrun & Htr1 & Hk1 & Hs1).
  rewrite Hrun in Hle. simpl in Hle.
  exists s1, (EvDbSelectNull "images" "diagnosis" :: evs0 ++ evs1).
  split; [done|]. split; [split; [done|]|].
  - split; [by rewrite Htr1, Htr0, <- app_assoc|]. split.
    + constructor; [in_list|]. apply Forall_app. split.
      * apply (kinds_in_weaken [KLog]); [|done].
        intros k Hk. apply list_elem_of_singleton in Hk. subst k. in_list.
      * apply (kinds_in_weaken [KLog; KSleep; KFetch; KInfer; KUpdate]);
          [|done].
        intros k Hk. apply list_elem_of_In in Hk. simpl in Hk.
        apply list_elem_of_In. simpl. intuition.
    + change (sleeps_of (?ev :: ?l)) with (sleeps_of l).
      rewrite sleeps_of_app. apply Forall_app. split; [|done].
      rewrite (kinds_in_no_sleeps _ _ Hk0); [constructor|].
      intros Hin. apply list_elem_of_singleton in Hin. discriminate.
  - change (count_kind KSelect (?ev :: ?l)) with (S (count_kind KSelect l)).
    rewrite count_kind_app.
    rewrite (kinds_in_count_zero _ _ _ Hk0), (kinds_in_count_zero _ _ _ Hk1);
      [done| |].
    + intros Hin. apply list_elem_of_In in Hin. simpl in Hin.
      intuition discriminate.
    + intros Hin. apply list_elem_of_singleton in Hin. discriminate.
Qed.







Section Main.

Context (int_builtin : pystr -> res Z).

Lemma interval_from_argv_cases (argv : list pystr) (s : sys W) :
  (exists interval evs,
      interval_from_argv int_builtin argv s
      = (Ok interval, Sys (world s) (table s) (trace s ++ evs))
      /\ (0 < interval)%Z
      /\ kinds_in [KLog] evs
      /\ match argv !! 1%nat with
         | None => interval = 30%Z
         | Some arg =>
             match int_builtin arg with
             | Ok n => interval = if (n <=? 0)%Z then 30%Z else n
             | Raise _ => interval = 30%Z
             end
         end)
  \/ (exists arg e,
        argv !! 1%nat = Some arg
        /\ int_builtin arg = Raise e
        /\ is_ValueError e = false
        /\ interval_from_argv int_builtin argv s = (Raise e, s)).
Proof.
  destruct s as [w t tr].
  destruct argv as [|prog [|arg rest]].
  - left. exists 30%Z, []. simpl. rewrite app_nil_r.
    split; [done|]. split; [done|]. split; [constructor|done].
  - left. exists 30%Z, []. simpl. rewrite app_nil_r.
    split; [done|]. split; [done|]. split; [constructor|done].
  - unfold interval_from_argv, try_except, bind, eval, log, emit, ret, raise.
    simpl. destruct (int_builtin arg) as [n|e] eqn:Hint; simpl.
    + left. destruct (n <=? 0)%Z eqn:Hn; simpl.
      * eexists 30%Z, [_]. split; [reflexivity|]. split; [done|].
        split; [|done]. constructor; [in_list|constructor].
      * exists n, []. rewrite app_nil_r. split; [done|].
        split; [by apply Z.leb_gt|]. split; [constructor|done].
    + destruct (is_ValueError e) eqn:He; simpl.
      * left. eexists 30%Z, [_]. split; [reflexivity|]. split; [done|].
        split; [|done]. constructor; [in_list|constructor].
      * right. by exists arg, e.
Qed.

(** X20: the interval [main] passes to the monitoring loop is always
    positive.  Reading it only logs; an argument that [int] reads as a
    positive number is that interval; with no argument, with a number that
    is not positive, or with an argument that [int] refuses with a
    ValueError, the interval is 30.  Any other exception of [int] is not
    caught. *)
Theorem interval_from_argv_positive (argv : list pystr) (s : sys W) :
  (exists interval evs,
      interval_from_argv int_builtin argv s
      = (Ok interval, Sys (world s) (table s) (trace s ++ evs))
      /\ (0 < interval)%Z
      /\ kinds_in [KLog] evs
      /\ match argv !! 1%nat with
         | None => interval = 30%Z
         | Some arg =>
             match int_builtin arg with
             | Ok n => interval = if (n <=? 0)%Z then 30%Z else n
             | Raise _ => interval = 30%Z
             end
         end)
  \/ (exists arg e,
        argv !! 1%nat = Some arg
        /\ int_builtin arg = Raise e
        /\ is_ValueError e = false
        /\ interval_from_argv int_builtin argv s = (Raise e, s)).
Proof. apply interval_from_argv_cases. Qed.




End Main.

End Passes.




Section RunOnceListing.

Context {W : Type} (E : External W).

Lemma file_lines_kinds (files : list pystr) : kinds_in [KLog] (file_lines files).
Proof.
  induction files as [|file files IH]; constructor; [in_list|done].
Qed.

Lemma test_storage_connection_listed (s : sys W) files w' :
  storage_list E "images" (world s) = (Ok files, w') ->
  test_storage_connection E s
  = (Ok true,
     Sys w' (table s)
       (trace s
        ++ [EvLog INFO "Testing storage bucket connection..." [];
            EvStorageList "images";
            EvLog INFO "Found {len(files)} items in root of images bucket"
              [str_of_Z (Z.of_nat (length files))]]
        ++ file_lines (take 5 files))).
Proof.
  intros Hl.
  unfold test_storage_connection, list_bucket, log, emit, call, bind,
    try_except, ret.
  destruct s as [w t tr]; simpl. simpl in Hl.
  destruct (storage_list E "images" w) as [[fs|e] w1]; simpl;
    [|discriminate].
  injection Hl as -> ->.
  match goal with
  | |- context [for_each (take 5 files) ?f ?st] =>
      change (for_each (take 5 files) f st)
        with (for_each (take 5 files)
                (fun file => log (W:=W) INFO "File: {file}" [file]) st)
  end.
  rewrite for_each_log. simpl. by rewrite <- !app_assoc.
Qed.

(** X22: when the bucket can be listed, [run_once] goes on to one pass of
    [process_new_images] and returns: it leaves the world and the table as
    that pass does when started after the listing, lists once, queries the
    pending set once, and ends with the line that the check is completed. *)
Theorem run_once_processes_after_listing (s : sys W) files w' :
  storage_list E "images" (world s) = (Ok files, w') ->
  exists s' evs,
    run_once E s = (Ok tt, s')
    /\ same_db s' (snd (process_new_images E (Sys w' (table s) (trace s))))
    /\ table_le (table s) (table s')
    /\ trace s' = trace s ++ evs ++ [EvLog INFO "One-time check completed" []]
    /\ count_kind KList evs = 1%nat
    /\ count_kind KSelect evs = 1%nat.
Proof.
  intros Hl. unfold run_once, bind.
  set (s0 := snd (log INFO "Running one-time diagnosis check..." [] s)).
  change (log INFO _ _ s) with (Ok tt, s0). cbv beta iota.
  rewrite (test_storage_connection_listed s0 files w' Hl).
  cbn [negb]. cbv beta iota.
  set (s1 := Sys w' (table s0) _).
  destruct (process_new_images_pass E s1)
    as (s2 & evs2 & Hrun & (Hle & Htr & Hk & _) & Hcount).
  rewrite Hrun. cbv beta iota.
  destruct (process_new_images_trace_blind E s1 (Sys w' (table s) (trace s)))
    as [_ Hdb]; [by split|].
  rewrite Hrun in Hdb. simpl in Hdb.
  eexists _, ([_] ++ ([_; _; _] ++ file_lines (take 5 files)) ++ evs2).
  split; [reflexivity|]. split; [by destruct Hdb|]. split; [done|]. split.
  { unfold log, emit. simpl. rewrite Htr. subst s1 s0. simpl.
    by rewrite <- !app_assoc. }
  rewrite !count_kind_app.
  rewrite (kinds_in_count_zero _ KList _ (file_lines_kinds _)),
    (kinds_in_count_zero _ KSelect _ (file_lines_kinds _)),
    (kinds_in_count_zero _ KList _ Hk), Hcount.
  - done.
  - intros Hin. apply list_elem_of_In in Hin. simpl in Hin.
    intuition discriminate.
  - intros Hin. apply list_elem_of_singleton in Hin. discriminate.
  - intros Hin. apply list_elem_of_singleton in Hin. discriminate.
Qed.

End RunOnceListing.

Lemma run_once_processes_after_listing_witness :
  let w := Demo.World [] true in
  let s := Demo.start [Demo.row "r1" "img/1.jpg"] w in
  exists s' evs,
    run_once Demo.env s = (Ok tt, s')
    /\ same_db s' (snd (process_new_images Demo.env (Sys w (table s) (trace s))))
    /\ table_le (table s) (table s')
    /\ trace s' = trace s ++ evs ++ [EvLog INFO "One-time check completed" []]
    /\ count_kind KList evs = 1%nat
    /\ count_kind KSelect evs = 1%nat.
Proof.
  intros w s.
  apply (run_once_processes_after_listing Demo.env s [py "img"] w).
  reflexivity.
Defined.

(** ** Records set aside before the fetch *)

Section Skipped.

Context {W : Type} (E : External W).

(** X23: a record without [id], without [storage_path], or with a falsy
    storage path is set aside before any fetch, by both loops.  The loop of
    [handle_diagnosis_request] appends one error entry, with the record's
    identifier (or the text unknown) and the reason, and changes nothing
    else; the loop of [process_new_images] logs one line, a warning or an
    error, and does not sleep. *)
Theorem malformed_record_skipped
    (image_record : dict) (shown : pyval) (message : pystr)
    (s : sys W) (l : locals) :
  skip_reason image_record = Some (shown, message) ->
  handle_record E image_record (s, l)
  = (Ok tt,
     (s, Locals (processed_count l)
           (results l ++ [error_entry shown message])))
  /\ exists lvl template args,
       process_record E image_record s
       = (Ok tt,
          Sys (world s) (table s) (trace s ++ [EvLog lvl template args]))
       /\ lvl <> INFO.
Proof.
  intros Hskip. destruct l as [pc rs]. unfold skip_reason in Hskip.
  unfold handle_record, handle_record_body, process_record,
    process_record_body, results_append, get_locals, set_locals, log, emit,
    bind, try_except, eval, ret, getitem, get.
  destruct (image_record !! py "id") as [id|]; simpl.
  2:{ injection Hskip as <- <-. split; [done|]. by eexists ERROR, _, _. }
  destruct (image_record !! py "storage_path") as [p|]; simpl.
  2:{ injection Hskip as <- <-. split; [done|]. by eexists ERROR, _, _. }
  destruct (truthy p); [done|]. simpl.
  injection Hskip as <- <-. split; [done|]. by eexists WARNING, _, _.
Qed.

End Skipped.

Lemma malformed_record_skipped_witness :
  let image_record : dict := <[py "id" := PStr (py "r1")]> ∅ in
  let s := Demo.start [Demo.row "r1" "img/1.jpg"] (Demo.World [] true) in
  let l := Locals 0 [] in
  handle_record Demo.env image_record (s, l)
  = (Ok tt,
     (s, Locals (processed_count l)
           (results l
            ++ [error_entry (PStr (py "r1")) (py "'storage_path'")])))
  /\ exists lvl template args,
       process_record Demo.env image_record s
       = (Ok tt,
          Sys (world s) (table s) (trace s ++ [EvLog lvl template args]))
       /\ lvl <> INFO.
Proof.
  intros image_record s l.
  apply (malformed_record_skipped Demo.env image_record (PStr (py "r1"))
           (py "'storage_path'") s l).
  reflexivity.
Defined.
